(** * Resolution-source scraper: a shallow embedding and its properties

    The development follows the Python package [resolution_scraper]:
    [extraction.py], [models.py], [config.py], [formatters.py],
    [orchestrator.py] and the adapters.

    Conventions of the embedding.
    - A Python [str] is a [string]; its characters are the code points
      below 256.
    - A Python [int] is a [Z]; a Python [float] is idealised as a rational
      (or an infinity, or nan): rounding is not modelled.
    - A Python exception that reaches a caller is [Raise msg], where [msg]
      is what [str(exc)] gives; a normal return is [Ok v].
    - Functions of the Python standard library and of third-party packages
      ([urlparse], [float], [str] of a float, the HTTP client, the clock)
      are parameters of the development; executable models of some of
      them are given for evaluation on concrete inputs. *)

From Stdlib Require Import ZArith QArith List Ascii String Bool Lia Sorted Permutation.
From stdpp Require Import gmap strings list.
Import ListNotations.

Local Open Scope string_scope.
Local Open Scope list_scope.
Local Open Scope Z_scope.
#[local] Set Warnings "-register-all,-notation-for-abbreviation".

(** ** Exceptions as values *)

Inductive res (A : Type) : Type :=
| Ok (a : A)
| Raise (msg : string).
Arguments Ok {A} a.
Arguments Raise {A} msg.

(** ** Python string operations *)

Module Str.

Definition code (c : ascii) : N := N_of_ascii c.

(** [str.lower] on one character of the Latin-1 range: A-Z, and the
    accented capitals U+00C0..U+00DE except the multiplication sign. *)
Definition lower_char (c : ascii) : ascii :=
  let n := code c in
  if ((65 <=? n) && (n <=? 90))%N then ascii_of_N (n + 32)
  else if ((192 <=? n) && (n <=? 222) && negb (n =? 215))%N then ascii_of_N (n + 32)
  else c.

Fixpoint lower (s : string) : string :=
  match s with
  | EmptyString => EmptyString
  | String c r => String (lower_char c) (lower r)
  end.

(** [s.startswith(p)] *)
Fixpoint startswith (p s : string) : bool :=
  match p, s with
  | EmptyString, _ => true
  | String a p', String b s' => if Ascii.eqb a b then startswith p' s' else false
  | String _ _, EmptyString => false
  end.

(** [sub in s] *)
Fixpoint contains (sub s : string) : bool :=
  startswith sub s ||
  match s with
  | EmptyString => false
  | String _ r => contains sub r
  end.

(** [s.endswith(suf)] *)
Fixpoint endswith (suf s : string) : bool :=
  match s with
  | EmptyString => String.eqb suf EmptyString
  | String _ r => String.eqb suf s || endswith suf r
  end.

Fixpoint drop (n : nat) (s : string) : string :=
  match n, s with
  | O, _ => s
  | S n', String _ r => drop n' r
  | S _, EmptyString => EmptyString
  end.

Fixpoint mem (c : ascii) (s : string) : bool :=
  match s with
  | EmptyString => false
  | String a r => Ascii.eqb c a || mem c r
  end.

(** [s.split(c, 1)] for a single-character separator: the part before
    the first [c] and, when [c] occurs, the part after it. *)
Fixpoint split1 (c : ascii) (s : string) : string * option string :=
  match s with
  | EmptyString => (EmptyString, None)
  | String a r =>
      if Ascii.eqb a c then (EmptyString, Some r)
      else let '(h, t) := split1 c r in (String a h, t)
  end.

(** The longest prefix of characters satisfying [p], and the rest. *)
Fixpoint span (p : ascii -> bool) (s : string) : string * string :=
  match s with
  | EmptyString => (EmptyString, EmptyString)
  | String a r =>
      if p a then let '(h, t) := span p r in (String a h, t)
      else (EmptyString, s)
  end.

Fixpoint rev_onto (s acc : string) : string :=
  match s with
  | EmptyString => acc
  | String a r => rev_onto r (String a acc)
  end.

Definition rev (s : string) : string := rev_onto s EmptyString.

(** [s.lstrip(chars)] and [s.rstrip(chars)] with [chars] given as a predicate. *)
Definition lstrip (p : ascii -> bool) (s : string) : string := snd (span p s).
Definition rstrip (p : ascii -> bool) (s : string) : string := rev (lstrip p (rev s)).

(** [s.replace(c, "")] for a single character. *)
Fixpoint remove_char (c : ascii) (s : string) : string :=
  match s with
  | EmptyString => EmptyString
  | String a r => if Ascii.eqb a c then remove_char c r else String a (remove_char c r)
  end.

(** [str.isspace] on one character of the Latin-1 range; the same set is
    matched by the regular-expression class [\s]. *)
Definition is_space (c : ascii) : bool :=
  let n := code c in
  (((9 <=? n) && (n <=? 13)) || ((28 <=? n) && (n <=? 32)) || (n =? 133) || (n =? 160))%N.

Definition is_digit (c : ascii) : bool :=
  let n := code c in ((48 <=? n) && (n <=? 57))%N.

(** [s.strip()] *)
Definition strip (s : string) : string := rstrip is_space (lstrip is_space s).

(** [s.count(c)] for a single character. *)
Fixpoint count (c : ascii) (s : string) : nat :=
  match s with
  | EmptyString => O
  | String a r => if Ascii.eqb a c then S (count c r) else count c r
  end.

(** [sep.join(parts)] *)
Fixpoint join (sep : string) (parts : list string) : string :=
  match parts with
  | [] => EmptyString
  | [p] => p
  | p :: rest => p +:+ sep +:+ join sep rest
  end.

(** [str(n)] for a non-negative integer, most significant digit first. *)
Fixpoint digits_fuel (fuel : nat) (n : N) (acc : string) : string :=
  match fuel with
  | O => acc
  | S f =>
      let acc' := String (ascii_of_N (48 + N.modulo n 10)) acc in
      if (n <? 10)%N then acc' else digits_fuel f (N.div n 10) acc'
  end.

Definition of_N (n : N) : string := digits_fuel (S (N.to_nat (N.log2 n))) n EmptyString.

(** [str(z)] for a Python int. *)
Definition of_Z (z : Z) : string :=
  if z <? 0 then String "-" (of_N (Z.to_N (- z))) else of_N (Z.to_N z).

End Str.

Definition newline : ascii := ascii_of_N 10.
Definition nl : string := String newline EmptyString.

(** ** [urllib.parse.urlparse]: result type and an executable model *)

Record ParseResult : Type := mkParseResult {
  scheme : string;
  netloc : string;
  path : string;
  params : string;
  query : string;
  fragment : string
}.

(** The model follows [urlsplit] and [urlparse] of CPython 3.11:
    leading C0 controls and spaces are stripped, tab, CR and LF are
    removed, the scheme is split at the first colon when everything before
    it is a scheme character, the netloc runs from [//] to the first of
    [/?#], an unbalanced square bracket in the netloc raises
    [ValueError("Invalid IPv6 URL")], then fragment, query and the
    parameters of the last path segment are split off.  The validation of
    a host written between balanced brackets is not modelled. *)
Module UrlModel.

Definition is_c0_or_space (c : ascii) : bool := (Str.code c <=? 32)%N.

Definition is_ascii_alpha (c : ascii) : bool :=
  let n := Str.code c in
  (((65 <=? n) && (n <=? 90)) || ((97 <=? n) && (n <=? 122)))%N.

Definition is_scheme_char (c : ascii) : bool :=
  is_ascii_alpha c || Str.is_digit c || Str.mem c "+-.".

Fixpoint all_chars (p : ascii -> bool) (s : string) : bool :=
  match s with
  | EmptyString => true
  | String a r => p a && all_chars p r
  end.

Definition uses_params : list string :=
  [""; "ftp"; "hdl"; "prospero"; "http"; "imap"; "https"; "shttp"; "rtsp";
   "rtspu"; "sip"; "sips"; "mms"; "sftp"; "tel"].

(** [scheme, url = url[:i].lower(), url[i+1:]] when the test on the
    part before the first colon succeeds. *)
Definition split_scheme (url : string) : string * string :=
  match Str.split1 ":" url with
  | (String c0 r as before, Some after) =>
      if is_ascii_alpha c0 && all_chars is_scheme_char before
      then (Str.lower before, after)
      else (EmptyString, url)
  | _ => (EmptyString, url)
  end.

(** [_splitnetloc(url, 2)] after the test [url[:2] == '//']. *)
Definition split_netloc (url : string) : string * string :=
  if Str.startswith "//" url
  then Str.span (fun c => negb (Str.mem c "/?#")) (Str.drop 2 url)
  else (EmptyString, url).

(** [_splitparams]: the parameters are looked for after the last slash. *)
Definition split_params (url : string) : string * string :=
  let '(rlast, rhead) := Str.span (fun c => negb (Ascii.eqb c "/")) (Str.rev url) in
  match Str.split1 ";" (Str.rev rlast) with
  | (seg, Some ps) => (Str.rev rhead +:+ seg, ps)
  | (_, None) => (url, EmptyString)
  end.

Definition or_empty (o : option string) : string :=
  match o with Some s => s | None => EmptyString end.

Definition urlparse (url0 : string) : res ParseResult :=
  let url1 := Str.lstrip is_c0_or_space url0 in
  let url2 := Str.remove_char (ascii_of_N 10)
                (Str.remove_char (ascii_of_N 13)
                   (Str.remove_char (ascii_of_N 9) url1)) in
  let '(sch, url3) := split_scheme url2 in
  let '(nloc, url4) := split_netloc url3 in
  if xorb (Str.mem "[" nloc) (Str.mem "]" nloc)
  then Raise "Invalid IPv6 URL"
  else
    let '(url5, frag) := Str.split1 "#" url4 in
    let '(url6, qry) := Str.split1 "?" url5 in
    let '(pth, prm) :=
      if existsb (String.eqb sch) uses_params && Str.mem ";" url6
      then split_params url6 else (url6, EmptyString) in
    Ok (mkParseResult sch nloc pth prm (or_empty qry) (or_empty frag)).

End UrlModel.

(** ** [float(text)]: values and an executable model *)

Inductive pyfloat : Type :=
| FFin (q : Q)
| FInf (negative : bool)
| FNan.

(** [value.is_integer()] *)
Definition is_integer (f : pyfloat) : bool :=
  match f with
  | FFin q => (Z.modulo (Qnum q) (Zpos (Qden q)) =? 0)%Z
  | _ => false
  end.

(** [int(value)] for a float on which [is_integer] holds. *)
Definition int_of_integral (f : pyfloat) : Z :=
  match f with
  | FFin q => (Qnum q / Zpos (Qden q))%Z
  | _ => 0%Z
  end.

(** The model follows the grammar accepted by [float(str)]: surrounding
    whitespace is ignored (tab to carriage return, space, U+0085 and
    U+00A0; not the separators U+001C..U+001F), then an optional sign and
    either [inf], [infinity] or [nan] in any case, or a decimal numeral
    with an optional fraction and an optional exponent, where single
    underscores may separate digits.  A numeral denotes the rational it
    spells: rounding to binary64 and overflow to infinity are not
    modelled.  [None] stands for [ValueError]. *)
Module FloatModel.

Definition is_blank (c : ascii) : bool :=
  let n := Str.code c in
  (((9 <=? n) && (n <=? 13)) || (n =? 32) || (n =? 133) || (n =? 160))%N.

Definition strip_blanks (s : string) : string :=
  Str.rstrip is_blank (Str.lstrip is_blank s).

Definition digit_val (c : ascii) : Z := Z.of_N (Str.code c) - 48.

(** Digits after the first one of a digit part: [(["_"] digit)*]. *)
Fixpoint digits_loop (s : string) (acc : Z) (n : nat) : Z * nat * string :=
  match s with
  | String c r =>
      if Str.is_digit c then digits_loop r (10 * acc + digit_val c) (S n)
      else if Ascii.eqb c "_" then
        match r with
        | String d r' =>
            if Str.is_digit d then digits_loop r' (10 * acc + digit_val d) (S n)
            else (acc, n, s)
        | EmptyString => (acc, n, s)
        end
      else (acc, n, s)
  | EmptyString => (acc, n, s)
  end.

(** [digitpart]: value, number of digits and the rest, when [s] starts with a digit. *)
Definition digitpart (s : string) : option (Z * nat * string) :=
  match s with
  | String c r => if Str.is_digit c then Some (digits_loop r (digit_val c) 1%nat) else None
  | EmptyString => None
  end.

Definition sign (s : string) : bool * string :=
  match s with
  | String "-" r => (true, r)
  | String "+" r => (false, r)
  | _ => (false, s)
  end.

(** [exponent]: [("e"|"E") sign? digitpart]; an absent exponent is 0. *)
Definition exponent (s : string) : option (Z * string) :=
  match s with
  | String c r =>
      if Ascii.eqb c "e" || Ascii.eqb c "E" then
        let '(neg, r1) := sign r in
        match digitpart r1 with
        | Some (e, _, rest) => Some (if neg then - e else e, rest)
        | None => None
        end
      else Some (0, s)
  | EmptyString => Some (0, s)
  end.

Definition scale (m e : Z) : Q :=
  if 0 <=? e then Qmake (m * 10 ^ e) 1
  else Qmake m (Z.to_pos (10 ^ (- e))).

(** The numeral after the sign: mantissa and exponent, all input consumed. *)
Definition numeral (s : string) : option Q :=
  let '(ip, s1) :=
    match digitpart s with
    | Some (i, _, rest) => (Some i, rest)
    | None => (None, s)
    end in
  let '(fp, s2) :=
    match s1 with
    | String "." r =>
        match digitpart r with
        | Some (f, k, rest) => (Some (Some (f, k)), rest)
        | None => (Some None, r)
        end
    | _ => (None, s1)
    end in
  let mantissa : option (Z * Z) :=
    match ip, fp with
    | Some i, Some (Some (f, k)) => Some (i * 10 ^ Z.of_nat k + f, Z.of_nat k)
    | Some i, _ => Some (i, 0)
    | None, Some (Some (f, k)) => Some (f, Z.of_nat k)
    | None, _ => None
    end in
  match mantissa, exponent s2 with
  | Some (m, k), Some (e, EmptyString) => Some (scale m (e - k))
  | _, _ => None
  end.

Definition py_float (text : string) : option pyfloat :=
  let '(neg, body) := sign (strip_blanks text) in
  let low := Str.lower body in
  if String.eqb low "inf" || String.eqb low "infinity" then Some (FInf neg)
  else if String.eqb low "nan" then Some FNan
  else match numeral body with
       | Some q => Some (FFin (if neg then Qopp q else q))
       | None => None
       end.

End FloatModel.

(** [int(text)] for a string, base 10: surrounding whitespace, an optional
    sign, digits with single underscores between them. *)
Definition py_int_of_str (text : string) : option Z :=
  let '(neg, body) := FloatModel.sign (FloatModel.strip_blanks text) in
  match FloatModel.digitpart body with
  | Some (v, _, EmptyString) => Some (if neg then - v else v)
  | _ => None
  end.

(** ** models.py and config.py *)

(** Python objects as [json.loads] builds them; an object keeps its keys
    in insertion order. *)
Inductive JValue : Type :=
| JNull
| JBool (b : bool)
| JInt (z : Z)
| JFloat (f : pyfloat)
| JStr (s : string)
| JArr (items : list JValue)
| JObj (fields : list (string * JValue)).

(** [value: float | int | str | None] *)
Inductive PyVal : Type :=
| VNone
| VInt (z : Z)
| VFloat (f : pyfloat)
| VStr (s : string).

(** The values a question-details mapping holds under the keys that the
    scraper reads. *)
Inductive DetailVal : Type :=
| DNone
| DBool (b : bool)
| DInt (z : Z)
| DStr (s : string).

Record ScrapeRequest : Type := mkScrapeRequest {
  question_id : Z;
  question_title : string;
  question_type : string;
  scheduled_resolve_time : DetailVal;
  request_url : string;
  resolution_text : string
}.

Record ResolutionSignal : Type := mkResolutionSignal {
  signal_url : string;
  metric : string;
  value : PyVal;
  as_of_utc : string;
  parser : string;
  confidence : string;
  note : string;
  raw : option (list (string * JValue))
}.

Record ScrapeResult : Type := mkScrapeResult {
  result_url : string;
  ok : bool;
  signals : list ResolutionSignal;
  error : option string
}.

Record ScraperConfig : Type := mkScraperConfig {
  request_timeout_s : Q;
  max_retries : Z;
  retry_backoff_s : Q;
  user_agent : string;
  use_browser_fallback : bool;
  browser_timeout_s : Q;
  per_run_cache_ttl_s : Z;
  max_parallel_fetches : Z
}.

Definition default_config : ScraperConfig :=
  mkScraperConfig (Qmake 12 1) 2 (Qmake 3 4) "Pirohuni-Forecast-Bot/1.0"
                  false (Qmake 20 1) 3600 4.

(** Truthiness of [str | None] and of a list, as [if x:] and [x or y] test it. *)
Definition truthy (o : option string) : bool :=
  match o with
  | Some (String _ _) => true
  | _ => false
  end.

Definition nonempty {A} (l : list A) : bool :=
  match l with [] => false | _ => true end.

(** ** extraction.py *)

(** One match of [PLAIN_URL_RE = (https?://[^\s)>\]]+)] at the start of [s]. *)
Definition plain_url_char (c : ascii) : bool :=
  negb (Str.is_space c || Str.mem c ")>]").

Definition http_prefix (s : string) : option (string * string) :=
  if Str.startswith "https://" s then Some ("https://", Str.drop 8 s)
  else if Str.startswith "http://" s then Some ("http://", Str.drop 7 s)
  else None.

Definition match_plain_url (s : string) : option (string * nat) :=
  match http_prefix s with
  | Some (pre, rest) =>
      match Str.span plain_url_char rest with
      | (String _ _ as body, _) =>
          Some (pre +:+ body, String.length pre + String.length body)%nat
      | _ => None
      end
  | None => None
  end.

(** One match of [MARKDOWN_LINK_RE = \[[^\]]+\]\((https?://[^)]+)\)] at
    the start of [s]: the captured URL and the length of the whole match. *)
Definition match_markdown_link (s : string) : option (string * nat) :=
  match s with
  | String "[" r =>
      match Str.span (fun c => negb (Ascii.eqb c "]")) r with
      | (String _ _ as label, rest) =>
          if Str.startswith "](" rest then
            match http_prefix (Str.drop 2 rest) with
            | Some (pre, rest') =>
                match Str.span (fun c => negb (Ascii.eqb c ")")) rest' with
                | (String _ _ as body, String ")" _) =>
                    Some (pre +:+ body,
                          1 + String.length label + 2 + String.length pre
                            + String.length body + 1)%nat
                | _ => None
                end
            | None => None
            end
          else None
      | _ => None
      end
  | _ => None
  end.

(** [pattern.findall(text)] for a pattern with one group that never
    matches the empty string: leftmost matches, left to right, without
    overlap.  [skip] counts the characters of the current match that are
    still to be passed. *)
Fixpoint findall (m : string -> option (string * nat)) (skip : nat) (text : string)
  : list string :=
  match text with
  | EmptyString => []
  | String _ r =>
      match skip with
      | S k => findall m k r
      | O =>
          match m text with
          | Some (g, n) => g :: findall m (Nat.pred n) r
          | None => findall m O r
          end
      end
  end.

Definition _clean_url (url : string) : string :=
  Str.rstrip (fun c => Str.mem c ".,;:!?") url.

(** The loop that fills [deduped], with [seen] as the set of cleaned URLs met so far. *)
Fixpoint dedupe (urls : list string) (seen : gset string) : list string :=
  match urls with
  | [] => []
  | raw_url :: rest =>
      let url := _clean_url raw_url in
      if decide (url ∈ seen) then dedupe rest seen
      else url :: dedupe rest ({[url]} ∪ seen)
  end.

Definition extract_resolution_urls (resolution_criteria fine_print description : string)
  : list string :=
  let text :=
    Str.join nl (filter (fun part => part ≠ EmptyString)
                        [resolution_criteria; fine_print; description]) in
  let urls := (findall match_markdown_link O text ++ findall match_plain_url O text)%list in
  dedupe urls ∅.

(** ** The HTTP client and the renderer, as the adapters see them *)

(** A row of [csv.DictReader]: header names in column order, each with its
    cell; a cell is [None] where the data row is shorter than the header. *)
Definition Row : Type := list (string * option string).

(** An [httpx] response.  [status_error] is the message of the
    [HTTPStatusError] that [raise_for_status()] raises, if it raises;
    [content_type] is [headers.get("content-type", "")]; [json] is what
    [response.json()] returns or raises; [csv_rows] is
    [list(csv.DictReader(StringIO(response.text)))]. *)
Record Response : Type := mkResponse {
  status_error : option string;
  content_type : string;
  text : string;
  json : res JValue;
  csv_rows : list Row
}.

(** What the [try] block of the browser adapter ends with. *)
Inductive RenderOutcome : Type :=
| RenderTimeout
| RenderError (msg : string)
| RenderBody (body_text : string).

(** ** Text helpers of the HTML adapters *)

Module Html.

Fixpoint take (n : nat) (s : string) : string :=
  match n, s with
  | S n', String a r => String a (take n' r)
  | _, _ => EmptyString
  end.

(** [re.sub(r"\s+", " ", text)]: [in_run] tells that the previous
    character belonged to a run of whitespace already replaced. *)
Fixpoint collapse_ws (in_run : bool) (s : string) : string :=
  match s with
  | EmptyString => EmptyString
  | String a r =>
      if Str.is_space a
      then (if in_run then collapse_ws true r else String " " (collapse_ws true r))
      else String a (collapse_ws false r)
  end.

Definition normalize_ws (s : string) : string := Str.strip (collapse_ws false s).

(** One match of [<[^>]+>] at the start of [s]: its length. *)
Definition match_tag (s : string) : option nat :=
  match s with
  | String "<" r =>
      match Str.span (fun c => negb (Ascii.eqb c ">")) r with
      | (String _ _ as inner, String ">" _) => Some (2 + String.length inner)%nat
      | _ => None
      end
  | _ => None
  end.

(** [re.sub(r"<[^>]+>", " ", html)] *)
Fixpoint strip_tags (skip : nat) (s : string) : string :=
  match s with
  | EmptyString => EmptyString
  | String a r =>
      match skip with
      | S k => strip_tags k r
      | O =>
          match match_tag s with
          | Some n => String " " (strip_tags (Nat.pred n) r)
          | None => String a (strip_tags O r)
          end
      end
  end.

(** [\d[\d,]*(?:\.\d+)?] at the start of [s]: the matched text. *)
Definition number_body (s : string) : option string :=
  match s with
  | String c r =>
      if Str.is_digit c then
        let '(run, rest) := Str.span (fun x => Str.is_digit x || Ascii.eqb x ",") r in
        let frac :=
          match rest with
          | String "." r2 =>
              match Str.span Str.is_digit r2 with
              | (String _ _ as ds, _) => String "." ds
              | _ => EmptyString
              end
          | _ => EmptyString
          end in
        Some (String c run +:+ frac)
      else None
  | EmptyString => None
  end.

(** [-?\d[\d,]*(?:\.\d+)?] at the start of [s]. *)
Definition signed_number (s : string) : option string :=
  match s with
  | String "-" r =>
      match number_body r with
      | Some b => Some (String "-" b)
      | None => None
      end
  | _ => number_body s
  end.

(** [GENERIC_NUMBER_RE.search(text)]: the leftmost match. *)
Fixpoint search_generic (s : string) : option string :=
  match signed_number s with
  | Some m => Some m
  | None =>
      match s with
      | String _ r => search_generic r
      | EmptyString => None
      end
  end.

(** [\D{0,k}] followed by the number group: the greedy repetition is
    tried first, then one character less, as the matcher backtracks. *)
Fixpoint tail_from (k : nat) (s : string) : option string :=
  match k, s with
  | S k', String c r =>
      if negb (Str.is_digit c) then
        match tail_from k' r with
        | Some m => Some m
        | None => signed_number s
        end
      else signed_number s
  | _, _ => signed_number s
  end.

(** [kw] matches at the start of [s] without regard to case: the rest. *)
Fixpoint match_keyword (kw s : string) : option string :=
  match kw, s with
  | EmptyString, _ => Some s
  | String a kw', String b s' =>
      if Ascii.eqb a (Str.lower_char b) then match_keyword kw' s' else None
  | String _ _, EmptyString => None
  end.

(** The alternatives of [(articles?|count|total|value|population|cases)]
    in the order in which the matcher tries them. *)
Definition keyword_alternatives : list string :=
  ["articles"; "article"; "count"; "total"; "value"; "population"; "cases"].

Fixpoint first_alternative (kws : list string) (s : string) : option string :=
  match kws with
  | [] => None
  | kw :: rest =>
      match match_keyword kw s with
      | Some after =>
          match tail_from 30 after with
          | Some m => Some m
          | None => first_alternative rest s
          end
      | None => first_alternative rest s
      end
  end.

(** [KEYWORD_NUMBER_RE.search(text)]: group 2 of the leftmost match. *)
Fixpoint search_keyword (s : string) : option string :=
  match first_alternative keyword_alternatives s with
  | Some m => Some m
  | None =>
      match s with
      | String _ r => search_keyword r
      | EmptyString => None
      end
  end.

End Html.

(** Integer part of a rational, towards zero: [int(x)] for a float. *)
Definition Qtrunc (q : Q) : Z := Z.quot (Qnum q) (Zpos (Qden q)).

(** ** Executable stand-ins for the library and the outside world

    They serve to evaluate the embedding on concrete inputs. *)
Module Sim.

(** [int(obj)]: integers and booleans, floats towards zero, numerals in
    strings; the message for a string is exact when the string needs no
    escaping. *)
Definition py_int (v : JValue) : res Z :=
  match v with
  | JInt z => Ok z
  | JBool b => Ok (if b then 1 else 0)
  | JFloat (FFin q) => Ok (Qtrunc q)
  | JFloat (FInf _) => Raise "cannot convert float infinity to integer"
  | JFloat FNan => Raise "cannot convert float NaN to integer"
  | JStr s =>
      match py_int_of_str s with
      | Some z => Ok z
      | None => Raise ("invalid literal for int() with base 10: '" +:+ s +:+ "'")
      end
  | JNull =>
      Raise "int() argument must be a string, a bytes-like object or a real number, not 'NoneType'"
  | JArr _ =>
      Raise "int() argument must be a string, a bytes-like object or a real number, not 'list'"
  | JObj _ =>
      Raise "int() argument must be a string, a bytes-like object or a real number, not 'dict'"
  end.

(** Digits of the fraction [r / d] for [0 <= r < d], while it terminates
    within [fuel] digits. *)
Fixpoint fraction_digits (fuel : nat) (r d : Z) : option string :=
  if r =? 0 then Some EmptyString
  else match fuel with
       | O => None
       | S f =>
           match fraction_digits f ((10 * r) mod d) d with
           | Some ds => Some (String (ascii_of_N (48 + Z.to_N (10 * r / d))) ds)
           | None => None
           end
       end.

(** [str(x)] for a float: exact for the infinities, nan, and the finite
    values that have a short terminating decimal expansion and a
    magnitude for which Python prints positional notation. *)
Definition float_repr (f : pyfloat) : string :=
  match f with
  | FInf false => "inf"
  | FInf true => "-inf"
  | FNan => "nan"
  | FFin q =>
      let n := Qnum q in
      let d := Zpos (Qden q) in
      let a := Z.abs n in
      let body :=
        match fraction_digits 17 (a mod d) d with
        | Some EmptyString => Str.of_Z (a / d) +:+ ".0"
        | Some ds => Str.of_Z (a / d) +:+ "." +:+ ds
        | None => Str.of_Z a +:+ "/" +:+ Str.of_Z d
        end in
      if n <? 0 then String "-" body else body
  end.

(** A world with a clock and a network that answers each URL always in
    the same way. *)
Definition World : Type := Q.

Definition http_get (net : string -> res Response)
    (url : string) (params headers : list (string * string)) (timeout : Q) (w : World)
  : res Response * World :=
  (net url, w).

Definition utc_now_iso (w : World) : string := "2026-01-01T00:00:00+00:00".
Definition time_time (w : World) : Q := w.
Definition asyncio_sleep (d : Q) (w : World) : World := Qplus w d.

(** A network on which every request fails to connect. *)
Definition unreachable (url : string) : res Response :=
  Raise "All connection attempts failed".

(** A response with a body and no error status. *)
Definition page (ctype body : string) (decoded : res JValue) (rows : list Row) : Response :=
  mkResponse None ctype body decoded rows.

End Sim.

(** ** Logs and outcomes of runs *)

(** What has been awaited, in the order of the calls: a call of
    [adapter.fetch] with what it returned or raised, a call of
    [asyncio.sleep] with its delay. *)
Inductive Event : Type :=
| EvFetch (adapter_name url : string) (outcome : res ScrapeResult)
| EvSleep (delay : Q).

(** How the run of a coroutine ends. *)
Inductive Outcome (A : Type) : Type :=
| Returned (a : A)
| Raised (msg : string)
| Blocked.
Arguments Returned {A} a.
Arguments Raised {A} msg.
Arguments Blocked {A}.

Section Scraper.

(** Library functions: [urllib.parse.urlparse], [float(str)], [str(float)],
    [int(obj)]. *)
Variable urlparse : string -> res ParseResult.
Variable py_float : string -> option pyfloat.
Variable float_repr : pyfloat -> string.
Variable py_int : JValue -> res Z.

(** The outside world: the network, the clock, the optional packages. *)
Variable World : Type.

(** [await client.get(url, params=params, headers=headers)] under the
    client's timeout; [Raise] is a transport error or a timeout. *)
Variable http_get :
  string -> list (string * string) -> list (string * string) -> Q ->
  World -> res Response * World.

(** [utc_now_iso()] and [time.time()] read the clock. *)
Variable utc_now_iso : World -> string.
Variable time_time : World -> Q.

(** [await asyncio.sleep(delay)] *)
Variable asyncio_sleep : Q -> World -> World.

(** [BeautifulSoup], when the package is importable: the joined stripped
    strings of the page and the stripped title text, empty without a title. *)
Variable bs4 : option (string -> string * string).

(** Playwright, when the package is importable: page load and body text
    for a URL and a timeout in milliseconds. *)
Variable playwright : option (string -> Z -> World -> RenderOutcome * World).

(** *** formatters.py *)

Definition _confidence_rank (level : string) : Z :=
  if String.eqb level "high" then 3
  else if String.eqb level "medium" then 2
  else 1.

(** [sorted(signals, key=..., reverse=True)]: a stable sort, descending
    by key.  [insert_desc] places an element before the first element of
    a smaller or equal key, so that it stays ahead of the equal-keyed
    elements that followed it in the input. *)
Fixpoint insert_desc {A} (key : A -> Z) (x : A) (l : list A) : list A :=
  match l with
  | [] => [x]
  | y :: r => if key x <? key y then y :: insert_desc key x r else x :: l
  end.

Definition sorted_desc {A} (key : A -> Z) (l : list A) : list A :=
  fold_right (insert_desc key) [] l.

(** Descending order of keys, ties allowed. *)
Definition desc {A} (key : A -> Z) (a b : A) : Prop := key b <= key a.

(** [l[:n]] for a Python int [n]. *)
Definition slice_to {A} (n : Z) (l : list A) : list A :=
  if n <? 0 then firstn (Z.to_nat (Z.max 0 (Z.of_nat (length l) + n))) l
  else firstn (Z.to_nat n) l.

(** [str(value)] inside an f-string. *)
Definition str_value (v : PyVal) : string :=
  match v with
  | VNone => "None"
  | VInt z => Str.of_Z z
  | VFloat f => float_repr f
  | VStr s => s
  end.

Definition snapshot_line (signal : ResolutionSignal) : string :=
  "- [" +:+ confidence signal +:+ "] " +:+ metric signal +:+ " = "
    +:+ str_value (value signal) +:+ " (as_of=" +:+ as_of_utc signal
    +:+ ", parser=" +:+ parser signal +:+ ", url=" +:+ signal_url signal +:+ ")".

(** The sort key [lambda s: _confidence_rank(s.confidence)]. *)
Definition rank (s : ResolutionSignal) : Z := _confidence_rank (confidence s).

(** The list [lines] that [format_resolution_snapshot] joins. *)
Definition snapshot_lines (signals : list ResolutionSignal) (max_items : Z) : list string :=
  let ordered := sorted_desc rank signals in
  let chosen := slice_to max_items ordered in
  map snapshot_line chosen.

Definition format_resolution_snapshot (signals : list ResolutionSignal) (max_items : Z)
  : string :=
  match signals with
  | [] => "No structured resolution-source signals extracted."
  | _ => Str.join nl (snapshot_lines signals max_items)
  end.

Definition format_scrape_errors (results : list ScrapeResult) (max_items : Z) : string :=
  let failed := List.filter (fun r => negb (ok r) && truthy (error r)) results in
  match failed with
  | [] => EmptyString
  | _ =>
      Str.join nl
        ("Resolution scrape errors:" ::
         map (fun item => "- " +:+ result_url item +:+ ": "
                            +:+ match error item with Some e => e | None => "None" end)
             (slice_to max_items failed))
  end.

(** *** extraction.py: [classify_url] *)

Definition classify_url (url : string) : res string :=
  match urlparse url with
  | Raise msg => Raise msg
  | Ok parsed =>
      let host := Str.lower (netloc parsed) in
      let path := Str.lower (path parsed) in
      if Str.contains "wikipedia.org" host then Ok "wikipedia"
      else if Str.endswith ".json" path || Str.contains "api" path
              || Str.contains "format=json" (query parsed) then Ok "json_api"
      else if Str.endswith ".csv" path then Ok "csv"
      else if Str.endswith ".xml" path then Ok "xml"
      else if Str.endswith ".pdf" path then Ok "pdf"
      else Ok "html"
  end.

(** *** adapters/base.py *)

(** The two operations of [SourceAdapter].  [can_handle] is synchronous;
    [fetch] is a coroutine that acts on the outside world. *)
Record SourceAdapter : Type := mkSourceAdapter {
  name : string;
  can_handle : ScrapeRequest -> res bool;
  fetch : ScrapeRequest -> World -> res ScrapeResult * World
}.

Definition failure (url msg : string) : ScrapeResult :=
  mkScrapeResult url false [] (Some msg).

Definition success (url : string) (signal : ResolutionSignal) : ScrapeResult :=
  mkScrapeResult url true [signal] None.

(** The block
    [async with httpx.AsyncClient(...) as client:
       response = await client.get(...); response.raise_for_status()]:
    the response, or the exception that leaves the block. *)
Definition get_checked (config : ScraperConfig) (url : string)
    (params headers : list (string * string)) (w : World) : res Response * World :=
  match http_get url params headers (request_timeout_s config) w with
  | (Raise msg, w') => (Raise msg, w')
  | (Ok response, w') =>
      match status_error response with
      | Some msg => (Raise msg, w')
      | None => (Ok response, w')
      end
  end.

(** *** adapters/wikipedia.py *)

(** [s.split(sep)[0]]: the part of [s] before the first occurrence of [sep]. *)
Fixpoint before_first (sep s : string) : string :=
  if Str.startswith sep s then EmptyString
  else match s with
       | EmptyString => EmptyString
       | String a r => String a (before_first sep r)
       end.

(** [s.split(".")[-1]]: the part of [s] after its last dot. *)
Definition after_last_dot (s : string) : string :=
  Str.rev (fst (Str.span (fun c => negb (Ascii.eqb c ".")) (Str.rev s))).

(** The name of the type of a Python object, as error messages print it. *)
Definition type_name (v : JValue) : string :=
  match v with
  | JNull => "NoneType"
  | JBool _ => "bool"
  | JInt _ => "int"
  | JFloat _ => "float"
  | JStr _ => "str"
  | JArr _ => "list"
  | JObj _ => "dict"
  end.

Fixpoint assoc {A} (key : string) (fields : list (string * A)) : option A :=
  match fields with
  | [] => None
  | (k, v) :: rest => if String.eqb k key then Some v else assoc key rest
  end.

(** [obj.get(key, default)]: an [AttributeError] unless [obj] is a dict. *)
Definition py_get (obj : JValue) (key : string) (default : JValue) : res JValue :=
  match obj with
  | JObj fields =>
      Ok (match assoc key fields with Some v => v | None => default end)
  | _ => Raise ("'" +:+ type_name obj +:+ "' object has no attribute 'get'")
  end.

Definition wikipedia_can_handle (request : ScrapeRequest) : res bool :=
  match urlparse (request_url request) with
  | Raise msg => Raise msg
  | Ok parsed => Ok (Str.contains "wikipedia.org" (Str.lower (netloc parsed)))
  end.

Definition wikipedia_fetch (config : ScraperConfig) (request : ScrapeRequest) (w : World)
  : res ScrapeResult * World :=
  match urlparse (request_url request) with
  | Raise msg => (Raise msg, w)
  | Ok parsed =>
      let host := Str.lower (netloc parsed) in
      if negb (Str.contains ".wikipedia.org" host) then
        (Ok (failure (request_url request) "Unsupported Wikipedia host format."), w)
      else
        let lang :=
          match after_last_dot (before_first ".wikipedia.org" host) with
          | EmptyString => "en"
          | l => l
          end in
        let api_url := "https://" +:+ lang +:+ ".wikipedia.org/w/api.php" in
        let params := [("action", "query"); ("meta", "siteinfo");
                       ("siprop", "statistics"); ("format", "json")] in
        let headers := [("User-Agent", user_agent config)] in
        match get_checked config api_url params headers w with
        | (Raise msg, w1) => (Raise msg, w1)
        | (Ok response, w1) =>
            match json response with
            | Raise msg => (Raise msg, w1)
            | Ok payload =>
                match py_get payload "query" (JObj []) with
                | Raise msg => (Raise msg, w1)
                | Ok q =>
                    match py_get q "statistics" (JObj []) with
                    | Raise msg => (Raise msg, w1)
                    | Ok stats =>
                        match py_get stats "articles" JNull with
                        | Raise msg => (Raise msg, w1)
                        | Ok JNull =>
                            (Ok (failure (request_url request)
                                   "Could not find article statistics in MediaWiki response."),
                             w1)
                        | Ok articles =>
                            let low := Str.lower (resolution_text request) in
                            let conf :=
                              if Str.contains "article" low && Str.contains "wikipedia" low
                              then "high" else "medium" in
                            match py_int articles with
                            | Raise msg => (Raise msg, w1)
                            | Ok n =>
                                (Ok (success (request_url request)
                                       (mkResolutionSignal
                                          (request_url request)
                                          ("wikipedia_article_count_" +:+ lang)
                                          (VInt n)
                                          (utc_now_iso w1)
                                          "wikipedia_api"
                                          conf
                                          "Retrieved from MediaWiki siteinfo.statistics."
                                          (Some [("lang", JStr lang); ("statistics", stats)]))),
                                 w1)
                            end
                        end
                    end
                end
            end
        end
  end.

Definition WikipediaAdapter (config : ScraperConfig) : SourceAdapter :=
  mkSourceAdapter "wikipedia_api" wikipedia_can_handle (wikipedia_fetch config).

(** *** adapters/json_api.py *)

Definition priority_keys : list string :=
  ["value"; "count"; "total"; "articles"; "result"; "latest"; "data"].

Definition max_nodes : nat := 2000.

Definition in_list (k : string) (l : list string) : bool := existsb (String.eqb k) l.

(** The children that the walk appends to the queue for one node. *)
Definition children (path : string) (current : JValue) : list (string * JValue) :=
  match current with
  | JObj fields =>
      let keys := map fst fields in
      let ordered_keys :=
        (List.filter (fun k => in_list k keys) priority_keys
         ++ List.filter (fun k => negb (in_list k priority_keys)) keys)%list in
      omap (fun key => match assoc key fields with
                       | Some v => Some (path +:+ "." +:+ key, v)
                       | None => None
                       end) ordered_keys
  | JArr items =>
      imap (fun i item => (path +:+ "[" +:+ Str.of_N (N.of_nat i) +:+ "]", item))
           (firstn 20 items)
  | _ => []
  end.

(** The [while queue and visited < max_nodes] loop; [budget] is
    [max_nodes - visited].  The result comes with the final [visited]. *)
Fixpoint walk_queue (budget : nat) (queue : list (string * JValue)) (visited : nat)
  : option (string * PyVal) * nat :=
  match budget, queue with
  | S b, (path, current) :: rest =>
      let visited := S visited in
      match current with
      | JBool _ => walk_queue b rest visited
      | JInt z => (Some (path, VInt z), visited)
      | JFloat f => (Some (path, VFloat f), visited)
      | _ => walk_queue b (rest ++ children path current) visited
      end
  | _, _ => (None, visited)
  end.

Definition _extract_numeric_value (payload : JValue) : option (string * PyVal) :=
  fst (walk_queue max_nodes [("$", payload)] 0%nat).

(** Breadth-first order as the specification words it: the nodes of one
    level, then the nodes of the next level, which are the children of
    the former in the same order; [depth] levels at most. *)
Definition kids (level : list (string * JValue)) : list (string * JValue) :=
  flat_map (fun node => children (fst node) (snd node)) level.

Fixpoint level_order (depth : nat) (level : list (string * JValue))
  : list (string * JValue) :=
  match depth, level with
  | S d, _ :: _ => level ++ level_order d (kids level)
  | _, _ => []
  end.

(** The first node of a sequence that is an int or a float and not a bool. *)
Fixpoint first_numeric_leaf (nodes : list (string * JValue)) : option (string * PyVal) :=
  match nodes with
  | [] => None
  | (path, JInt z) :: _ => Some (path, VInt z)
  | (path, JFloat f) :: _ => Some (path, VFloat f)
  | _ :: rest => first_numeric_leaf rest
  end.

(** The nodes that the queue discipline takes out, were the walk not to
    stop at a number. *)
Fixpoint visit_order (budget : nat) (queue : list (string * JValue))
  : list (string * JValue) :=
  match budget, queue with
  | S b, (path, current) :: rest => (path, current) :: visit_order b (rest ++ children path current)
  | _, _ => []
  end.

Definition json_can_handle (request : ScrapeRequest) : res bool :=
  match urlparse (request_url request) with
  | Raise msg => Raise msg
  | Ok parsed =>
      let path := Str.lower (path parsed) in
      Ok (Str.endswith ".json" path || Str.contains "api" path
          || Str.contains "format=json" (Str.lower (query parsed)))
  end.

Definition json_fetch (config : ScraperConfig) (request : ScrapeRequest) (w : World)
  : res ScrapeResult * World :=
  let headers := [("User-Agent", user_agent config);
                  ("Accept", "application/json, text/plain, */*")] in
  match get_checked config (request_url request) [] headers w with
  | (Raise msg, w1) => (Raise msg, w1)
  | (Ok response, w1) =>
      let ctype := Str.lower (content_type response) in
      if negb (Str.contains "json" ctype)
         && negb (Str.endswith ".json" (Str.lower (request_url request)))
      then (Ok (failure (request_url request)
                  ("Expected JSON response, got content-type '" +:+ ctype +:+ "'.")), w1)
      else
        match json response with
        | Raise msg => (Raise msg, w1)
        | Ok payload =>
            match _extract_numeric_value payload with
            | None =>
                (Ok (failure (request_url request)
                       "No numeric value found in JSON payload."), w1)
            | Some (path, v) =>
                (Ok (success (request_url request)
                       (mkResolutionSignal
                          (request_url request)
                          "json_numeric_value"
                          v
                          (utc_now_iso w1)
                          "json_api"
                          "medium"
                          ("Heuristic extraction path: " +:+ path)
                          (Some [("path", JStr path)]))),
                 w1)
            end
        end
  end.

Definition JsonApiAdapter (config : ScraperConfig) : SourceAdapter :=
  mkSourceAdapter "json_api" json_can_handle (json_fetch config).

(** *** adapters/csv_file.py *)

Definition numeric_priority : list string :=
  ["count"; "total"; "value"; "articles"; "cases"].

(** [int(value) if value.is_integer() else value] *)
Definition coerce_float (f : pyfloat) : PyVal :=
  if is_integer f then VInt (int_of_integral f) else VFloat f.

Definition _parse_number (text : option string) : option PyVal :=
  match text with
  | None => None
  | Some t =>
      let cleaned := Str.remove_char "," (Str.strip t) in
      match cleaned with
      | EmptyString => None
      | _ => match py_float cleaned with
             | Some f => Some (coerce_float f)
             | None => None
             end
      end
  end.

(** [row.get(key)] *)
Definition row_get (row : Row) (key : string) : option string :=
  match assoc key row with
  | Some cell => cell
  | None => None
  end.

(** The list [ordered] of [_select_numeric_column]. *)
Definition ordered_columns (row : Row) : list string :=
  let keys := map fst row in
  let ordered :=
    List.filter (fun k => existsb (fun p => Str.contains p (Str.lower k)) numeric_priority)
                keys in
  (ordered ++ List.filter (fun k => negb (in_list k ordered)) keys)%list.

Fixpoint first_numeric (row : Row) (ordered : list string) : option (string * PyVal) :=
  match ordered with
  | [] => None
  | key :: rest =>
      match _parse_number (row_get row key) with
      | Some v => Some (key, v)
      | None => first_numeric row rest
      end
  end.

Definition _select_numeric_column (row : Row) : option (string * PyVal) :=
  first_numeric row (ordered_columns row).




Definition csv_can_handle (request : ScrapeRequest) : res bool :=
  match urlparse (request_url request) with
  | Raise msg => Raise msg
  | Ok parsed => Ok (Str.endswith ".csv" (Str.lower (path parsed)))
  end.

(** The part of [CsvAdapter.fetch] that follows the download. *)
Definition csv_extract (url : string) (now_iso : string) (rows : list Row) : ScrapeResult :=
  match last rows with
  | None => failure url "CSV has no data rows."
  | Some last_row =>
      match _select_numeric_column last_row with
      | None => failure url "No numeric column found in final CSV row."
      | Some (column, v) =>
          success url
            (mkResolutionSignal
               url
               ("csv_" +:+ column)
               v
               now_iso
               "csv"
               "medium"
               "Using last CSV row with heuristic numeric column selection."
               (Some [("row_index", JInt (Z.of_nat (length rows) - 1));
                      ("column", JStr column)]))
      end
  end.

Definition csv_fetch (config : ScraperConfig) (request : ScrapeRequest) (w : World)
  : res ScrapeResult * World :=
  let headers := [("User-Agent", user_agent config)] in
  match get_checked config (request_url request) [] headers w with
  | (Raise msg, w1) => (Raise msg, w1)
  | (Ok response, w1) =>
      (Ok (csv_extract (request_url request) (utc_now_iso w1) (csv_rows response)), w1)
  end.

Definition CsvAdapter (config : ScraperConfig) : SourceAdapter :=
  mkSourceAdapter "csv" csv_can_handle (csv_fetch config).

(** *** adapters/html_static.py *)

Definition _coerce_number (number_text : string) : option PyVal :=
  let cleaned := Str.strip (Str.remove_char "," number_text) in
  match cleaned with
  | EmptyString => None
  | _ => match py_float cleaned with
         | Some f => Some (coerce_float f)
         | None => None
         end
  end.

Definition extract_number_from_html_text (text : string) : option PyVal * string :=
  let generic :=
    match Html.search_generic text with
    | Some g =>
        match _coerce_number g with
        | Some v => (Some v, "generic_number_regex")
        | None => (None, "none")
        end
    | None => (None, "none")
    end in
  match Html.search_keyword text with
  | Some g =>
      match _coerce_number g with
      | Some v => (Some v, "keyword_number_regex")
      | None => generic
      end
  | None => generic
  end.

Definition html_can_handle (request : ScrapeRequest) : res bool := Ok true.

Definition html_fetch (config : ScraperConfig) (request : ScrapeRequest) (w : World)
  : res ScrapeResult * World :=
  let url := request_url request in
  let headers := [("User-Agent", user_agent config)] in
  match get_checked config url [] headers w with
  | (Raise msg, w1) => (Raise msg, w1)
  | (Ok response, w1) =>
      let html := text response in
      let lowered := Str.lower html in
      if Str.contains "__next_data__" lowered || Str.contains "enable javascript" lowered
      then (Ok (failure url "Likely JS-rendered page; static HTML insufficient."), w1)
      else
        let '(text0, title) :=
          match bs4 with
          | Some soup => soup html
          | None => (Html.strip_tags O html, EmptyString)
          end in
        let text1 := Html.normalize_ws text0 in
        if (String.length text1 <? 20)%nat
        then (Ok (failure url "Insufficient page text for static parsing."), w1)
        else
          match extract_number_from_html_text text1 with
          | (None, _) =>
              (Ok (failure url "No parseable number found in static HTML text."), w1)
          | (Some v, extraction_method) =>
              (Ok (success url
                     (mkResolutionSignal
                        url
                        "html_detected_value"
                        v
                        (utc_now_iso w1)
                        "html_static"
                        "low"
                        ("Extraction method: " +:+ extraction_method +:+ ". Title: "
                           +:+ Html.take 120 title)
                        (Some [("title", JStr (Html.take 240 title))]))),
               w1)
          end
  end.

Definition StaticHtmlAdapter (config : ScraperConfig) : SourceAdapter :=
  mkSourceAdapter "html_static" html_can_handle (html_fetch config).

(** *** adapters/browser_playwright.py *)

Definition browser_can_handle (request : ScrapeRequest) : res bool := Ok true.

Definition browser_fetch (config : ScraperConfig) (request : ScrapeRequest) (w : World)
  : res ScrapeResult * World :=
  let url := request_url request in
  match playwright with
  | None => (Ok (failure url "Playwright is not installed in this environment."), w)
  | Some render =>
      let timeout_ms := Qtrunc (Qmult (browser_timeout_s config) (Qmake 1000 1)) in
      match render url timeout_ms w with
      | (RenderTimeout, w1) =>
          (Ok (failure url "Playwright timed out while rendering page."), w1)
      | (RenderError msg, w1) =>
          (Ok (failure url ("Playwright browser parse failed: " +:+ msg)), w1)
      | (RenderBody body_text, w1) =>
          let text1 := Html.normalize_ws body_text in
          if (String.length text1 <? 20)%nat
          then (Ok (failure url "Rendered page text too short for extraction."), w1)
          else
            match extract_number_from_html_text text1 with
            | (None, _) =>
                (Ok (failure url "No parseable number found after browser render."), w1)
            | (Some v, extraction_method) =>
                (Ok (success url
                       (mkResolutionSignal
                          url
                          "browser_detected_value"
                          v
                          (utc_now_iso w1)
                          "browser_playwright"
                          "low"
                          ("Extraction method: " +:+ extraction_method +:+ ".")
                          None)),
                 w1)
            end
      end
  end.

Definition BrowserAdapter (config : ScraperConfig) : SourceAdapter :=
  mkSourceAdapter "browser_playwright" browser_can_handle (browser_fetch config).

(** *** orchestrator.py *)

(** A [ResolutionScraper] object: its configuration and its adapter
    chain.  Its mutable parts, the cache and the semaphore, live in
    [State] below. *)
Record ResolutionScraper : Type := mkResolutionScraper {
  config : ScraperConfig;
  adapters : list SourceAdapter
}.

Definition _build_default_adapters (cfg : ScraperConfig) : list SourceAdapter :=
  let base_adapters :=
    [WikipediaAdapter cfg; JsonApiAdapter cfg; CsvAdapter cfg; StaticHtmlAdapter cfg] in
  if use_browser_fallback cfg
  then (base_adapters ++ [BrowserAdapter cfg])%list
  else base_adapters.

(** [ResolutionScraper(config, adapters)]; [asyncio.Semaphore] refuses a
    negative initial value. *)
Definition ResolutionScraper_init (cfg : option ScraperConfig)
    (chain : option (list SourceAdapter)) : res ResolutionScraper :=
  let cfg' := match cfg with Some c => c | None => default_config end in
  if max_parallel_fetches cfg' <? 0
  then Raise "Semaphore initial value must be >= 0"
  else Ok (mkResolutionScraper cfg'
             (match chain with
              | Some (a :: l) => a :: l
              | _ => _build_default_adapters cfg'
              end)).

(** The cache maps a URL to its deadline and its result. *)
Definition _get_cached (now : Q) (url : string) (cache : gmap string (Q * ScrapeResult))
  : option ScrapeResult * gmap string (Q * ScrapeResult) :=
  match cache !! url with
  | None => (None, cache)
  | Some (expires_at, result) =>
      if Qle_bool expires_at now then (None, delete url cache)
      else (Some result, cache)
  end.

Definition _set_cached (now : Q) (ttl : Z) (url : string) (result : ScrapeResult)
    (cache : gmap string (Q * ScrapeResult)) : gmap string (Q * ScrapeResult) :=
  <[url := (Qplus now (inject_Z ttl), result)]> cache.

(** Coroutines of the orchestrator: a tree of the operations at which a
    coroutine touches the shared scraper object or awaits. *)
Inductive Prog (A : Type) : Type :=
| Ret (a : A)
| Throw (msg : string)
| GetCached (url : string) (k : option ScrapeResult -> Prog A)
| SetCached (url : string) (result : ScrapeResult) (k : Prog A)
| Acquire (k : Prog A)
| Release (k : Prog A)
| AwaitFetch (adapter : SourceAdapter) (request : ScrapeRequest)
             (k : res ScrapeResult -> Prog A)
| AwaitSleep (delay : Q) (k : Prog A).
Arguments Ret {A} a.
Arguments Throw {A} msg.
Arguments GetCached {A} url k.
Arguments SetCached {A} url result k.
Arguments Acquire {A} k.
Arguments Release {A} k.
Arguments AwaitFetch {A} adapter request k.
Arguments AwaitSleep {A} delay k.

Fixpoint bind {A B} (p : Prog A) (f : A -> Prog B) : Prog B :=
  match p with
  | Ret a => f a
  | Throw msg => Throw msg
  | GetCached url k => GetCached url (fun r => bind (k r) f)
  | SetCached url result k => SetCached url result (bind k f)
  | Acquire k => Acquire (bind k f)
  | Release k => Release (bind k f)
  | AwaitFetch a rq k => AwaitFetch a rq (fun out => bind (k out) f)
  | AwaitSleep d k => AwaitSleep d (bind k f)
  end.

Notation "'await' x ':=' p 'in' q" := (bind p (fun x => q))
  (at level 10, x name, p at level 100, q at level 200, only parsing).

(** Leaving an [async with self._semaphore] block, by return or by
    exception, releases the semaphore. *)
Fixpoint releasing {A} (body : Prog A) : Prog A :=
  match body with
  | Ret a => Release (Ret a)
  | Throw msg => Release (Throw msg)
  | GetCached url k => GetCached url (fun r => releasing (k r))
  | SetCached url result k => SetCached url result (releasing k)
  | Acquire k => Acquire (releasing k)
  | Release k => Release (releasing k)
  | AwaitFetch a rq k => AwaitFetch a rq (fun out => releasing (k out))
  | AwaitSleep d k => AwaitSleep d (releasing k)
  end.

Definition async_with_semaphore {A} (body : Prog A) : Prog A :=
  Acquire (releasing body).

(** Coroutines that do not touch the semaphore. *)
Inductive plain {A} : Prog A -> Prop :=
| plain_ret a : plain (Ret a)
| plain_throw msg : plain (Throw msg)
| plain_get url k : (forall r, plain (k r)) -> plain (GetCached url k)
| plain_set url result k : plain k -> plain (SetCached url result k)
| plain_fetch a rq k : (forall o, plain (k o)) -> plain (AwaitFetch a rq k)
| plain_sleep d k : plain k -> plain (AwaitSleep d k).

(** [gated b p]: the coroutine [p], entered while it holds a permit of
    the semaphore ([b = true]) or none ([b = false]), acquires only when
    it holds none, releases only when it holds one, fetches and sleeps
    only while it holds one, and ends holding none. *)
Inductive gated {A} : bool -> Prog A -> Prop :=
| gated_ret a : gated false (Ret a)
| gated_throw msg : gated false (Throw msg)
| gated_get b url k : (forall r, gated b (k r)) -> gated b (GetCached url k)
| gated_set b url result k : gated b k -> gated b (SetCached url result k)
| gated_acquire k : gated true k -> gated false (Acquire k)
| gated_release k : gated false k -> gated true (Release k)
| gated_fetch a rq k : (forall o, gated true (k o)) -> gated true (AwaitFetch a rq k)
| gated_sleep d k : gated true k -> gated true (AwaitSleep d k).

(** [x or y] on [str | None]. *)
Definition or_else (x y : option string) : option string :=
  if truthy x then x else y.

(** [str(question_details.get(key, ""))] *)
Definition str_detail (v : DetailVal) : string :=
  match v with
  | DNone => "None"
  | DBool true => "True"
  | DBool false => "False"
  | DInt z => Str.of_Z z
  | DStr s => s
  end.

Definition get_str (question_details : list (string * DetailVal)) (key : string) : string :=
  match assoc key question_details with
  | Some v => str_detail v
  | None => EmptyString
  end.

Definition _question_id (question_details : list (string * DetailVal)) : Z :=
  match assoc "id" question_details with
  | None | Some DNone => -1
  | Some (DBool b) => if b then 1 else 0
  | Some (DInt z) => z
  | Some (DStr s) => match py_int_of_str s with Some z => z | None => -1 end
  end.

Definition _build_request (question_details : list (string * DetailVal)) (url : string)
  : ScrapeRequest :=
  mkScrapeRequest
    (_question_id question_details)
    (get_str question_details "title")
    (get_str question_details "type")
    (match assoc "scheduled_resolve_time" question_details with
     | Some v => v
     | None => DNone
     end)
    url
    (Str.join nl [get_str question_details "resolution_criteria";
                  get_str question_details "fine_print";
                  get_str question_details "description"]).

(** *** Sample objects for evaluation *)

(** An adapter that accepts every request and whose [fetch] always raises. *)
Definition always_raising (adapter_name msg : string) : SourceAdapter :=
  mkSourceAdapter adapter_name (fun _ => Ok true) (fun _ w => (Raise msg, w)).

(** The default configuration with the given number of parallel fetches. *)
Definition config_with_slots (size : Z) : ScraperConfig :=
  mkScraperConfig (Qmake 12 1) 2 (Qmake 3 4) "Pirohuni-Forecast-Bot/1.0"
                  false (Qmake 20 1) 3600 size.

(** A scraper whose chain is one adapter that always raises. *)
Definition probe_scraper (size : Z) : ResolutionScraper :=
  mkResolutionScraper (config_with_slots size) [always_raising "probe" "boom"].

(** A scraper with the default configuration and the default chain. *)
Definition default_scraper : ResolutionScraper :=
  mkResolutionScraper default_config (_build_default_adapters default_config).

(** A request for a URL, as [_build_request] makes it from a mapping
    that has nothing but resolution criteria. *)
Definition request_for (url : string) : ScrapeRequest :=
  _build_request [("resolution_criteria", DStr ("See " +:+ url))] url.

Section WithScraper.

Variable self : ResolutionScraper.

(** The body of the [for attempt in range(total_attempts)] loop and what
    follows it: [remaining] iterations are left, starting with [attempt]. *)
Fixpoint retry_loop (adapter : SourceAdapter) (request : ScrapeRequest)
    (total_attempts : Z) (remaining : nat) (attempt : Z) (last_error : string)
  : Prog ScrapeResult :=
  match remaining with
  | O =>
      Ret (mkScrapeResult (request_url request) false []
             (Some (name adapter +:+ ": " +:+ last_error)))
  | S remaining' =>
      AwaitFetch adapter request (fun outcome =>
        let continue (last_error' : string) :=
          let next :=
            retry_loop adapter request total_attempts remaining' (attempt + 1) last_error' in
          if attempt <? total_attempts - 1
          then AwaitSleep (Qmult (retry_backoff_s (config self)) (inject_Z (2 ^ attempt))) next
          else next in
        match outcome with
        | Ok result =>
            if ok result then Ret result
            else continue (match error result with
                           | Some (String _ _ as e) => e
                           | _ => last_error
                           end)
        | Raise msg => continue msg
        end)
  end.

Definition _fetch_with_retries (adapter : SourceAdapter) (request : ScrapeRequest)
  : Prog ScrapeResult :=
  let total_attempts := Z.max 1 (max_retries (config self) + 1) in
  retry_loop adapter request total_attempts (Z.to_nat total_attempts) 0
             "Unknown fetch error.".

Fixpoint choose_adapter_in (chain : list SourceAdapter) (request : ScrapeRequest)
  : res (option SourceAdapter) :=
  match chain with
  | [] => Ok None
  | adapter :: rest =>
      match can_handle adapter request with
      | Raise msg => Raise msg
      | Ok true => Ok (Some adapter)
      | Ok false => choose_adapter_in rest request
      end
  end.

Definition choose_adapter (request : ScrapeRequest) : res (option SourceAdapter) :=
  choose_adapter_in (adapters self) request.

(** The [for adapter in self.adapters] loop of [scrape_url]: [inl result]
    when the loop is left by [return result], [inr fallback_error] when
    it runs to its end. *)
Fixpoint adapter_walk (chain : list SourceAdapter) (request : ScrapeRequest)
    (fallback_error : option string) : Prog (ScrapeResult + option string) :=
  match chain with
  | [] => Ret (inr fallback_error)
  | adapter :: rest =>
      match can_handle adapter request with
      | Raise msg => Throw msg
      | Ok false => adapter_walk rest request fallback_error
      | Ok true =>
          await result := _fetch_with_retries adapter request in
          if ok result && nonempty (signals result)
          then SetCached (request_url request) result (Ret (inl result))
          else adapter_walk rest request (or_else (error result) fallback_error)
      end
  end.

Definition scrape_url (request : ScrapeRequest) : Prog ScrapeResult :=
  GetCached (request_url request) (fun cached =>
    match cached with
    | Some r => Ret r
    | None =>
        await outcome :=
          async_with_semaphore
            (adapter_walk (adapters self) request (Some "No adapter accepted this URL.")) in
        match outcome with
        | inl result => Ret result
        | inr fallback_error =>
            let failed := mkScrapeResult (request_url request) false [] fallback_error in
            SetCached (request_url request) failed (Ret failed)
        end
    end).

(** The requests that [scrape_question_sources] builds, in URL-extraction order. *)
Definition question_requests (question_details : list (string * DetailVal))
  : list ScrapeRequest :=
  let urls :=
    extract_resolution_urls
      (get_str question_details "resolution_criteria")
      (get_str question_details "fine_print")
      (get_str question_details "description") in
  map (_build_request question_details) urls.

(** [await asyncio.gather] of a list of coroutines, under the schedule that lets
    each coroutine finish before the next one starts. *)
Fixpoint gather {A} (coroutines : list (Prog A)) : Prog (list A) :=
  match coroutines with
  | [] => Ret []
  | c :: rest => await r := c in await rs := gather rest in Ret (r :: rs)
  end.

Definition scrape_question_sources (question_details : list (string * DetailVal))
  : Prog (list ScrapeResult) :=
  match question_requests question_details with
  | [] => Ret []
  | requests => gather (map scrape_url requests)
  end.

Definition flatten_signals (results : list ScrapeResult) : list ResolutionSignal :=
  concat (map signals results).

(** *** Running a coroutine alone *)

(** The mutable state: the outside world, [self._cache], the value of
    [self._semaphore], and the log of awaited calls. *)
Record State : Type := mkState {
  world : World;
  cache : gmap string (Q * ScrapeResult);
  permits : Z;
  trace : list Event
}.

Fixpoint run {A} (p : Prog A) (st : State) : Outcome A * State :=
  match p with
  | Ret a => (Returned a, st)
  | Throw msg => (Raised msg, st)
  | GetCached url k =>
      let '(r, c) := _get_cached (time_time (world st)) url (cache st) in
      run (k r) (mkState (world st) c (permits st) (trace st))
  | SetCached url result k =>
      run k (mkState (world st)
                     (_set_cached (time_time (world st))
                                  (per_run_cache_ttl_s (config self)) url result (cache st))
                     (permits st) (trace st))
  | Acquire k =>
      if 0 <? permits st
      then run k (mkState (world st) (cache st) (permits st - 1) (trace st))
      else (Blocked, st)
  | Release k =>
      run k (mkState (world st) (cache st) (permits st + 1) (trace st))
  | AwaitFetch a rq k =>
      let '(outcome, w) := fetch a rq (world st) in
      run (k outcome)
          (mkState w (cache st) (permits st)
                   (trace st ++ [EvFetch (name a) (request_url rq) outcome]))
  | AwaitSleep d k =>
      run k (mkState (asyncio_sleep d (world st)) (cache st) (permits st)
                     (trace st ++ [EvSleep d]))
  end.

Definition with_permits (st : State) (n : Z) : State :=
  mkState (world st) (cache st) n (trace st).

Definition with_cache (st : State) (c : gmap string (Q * ScrapeResult)) : State :=
  mkState (world st) c (permits st) (trace st).

(** The failure that the retry loop returns after its last attempt. *)
Definition retry_failure (adapter : SourceAdapter) (request : ScrapeRequest)
    (last_error : string) : ScrapeResult :=
  mkScrapeResult (request_url request) false []
                 (Some (name adapter +:+ ": " +:+ last_error)).

(** An attempt that the retry loop does not accept. *)
Definition failed_attempt (outcome : res ScrapeResult) : bool :=
  match outcome with
  | Ok result => negb (ok result)
  | Raise _ => true
  end.

(** The error text that one attempt leaves, if it leaves one. *)
Definition error_text (outcome : res ScrapeResult) : option string :=
  match outcome with
  | Ok result => if truthy (error result) then error result else None
  | Raise msg => Some msg
  end.

(** The most recent error text of a sequence of attempts. *)
Definition most_recent_error (outcomes : list (res ScrapeResult)) : string :=
  List.last (omap error_text outcomes) "Unknown fetch error.".

(** The log of one retry loop whose attempts had the given outcomes, the
    first of them with index [i]: a sleep of [backoff * 2^i] lies between
    attempt [i] and the next one. *)
Fixpoint retry_trace (adapter_name url : string) (backoff : Q) (i : Z)
    (outcomes : list (res ScrapeResult)) : list Event :=
  match outcomes with
  | [] => []
  | [o] => [EvFetch adapter_name url o]
  | o :: rest =>
      EvFetch adapter_name url o
        :: EvSleep (Qmult backoff (inject_Z (2 ^ i)))
        :: retry_trace adapter_name url backoff (i + 1) rest
  end.

(** A result that the adapter walk accepts. *)
Definition accepted (result : ScrapeResult) : bool :=
  ok result && nonempty (signals result).

(** The last meaningful error message among the results of the adapters
    that were tried. *)
Definition last_meaningful_error (results : list ScrapeResult) : option string :=
  List.last (List.filter truthy (map error results))
            (Some "No adapter accepted this URL.").

(** An adapter whose [can_handle] returns [True] for the request. *)
Definition capable (request : ScrapeRequest) (adapter : SourceAdapter) : bool :=
  match can_handle adapter request with
  | Ok true => true
  | _ => false
  end.

(** The retry loops of the adapters of a list run one after the other,
    from a state to a state, with their results. *)
Inductive retries_in_turn (request : ScrapeRequest)
  : list SourceAdapter -> State -> list ScrapeResult -> State -> Prop :=
| turn_nil st : retries_in_turn request [] st [] st
| turn_cons adapter rest st result st1 results st2 :
    run (_fetch_with_retries adapter request) st = (Returned result, st1) ->
    retries_in_turn request rest st1 results st2 ->
    retries_in_turn request (adapter :: rest) st (result :: results) st2.

(** A result that the adapter walk passes over. *)
Definition rejected (result : ScrapeResult) : Prop := accepted result = false.

(** Every entry of the cache sits under the URL of its result. *)
Definition cache_keyed (c : gmap string (Q * ScrapeResult)) : Prop :=
  forall url expires_at r, c !! url = Some (expires_at, r) -> result_url r = url.

(** The adapters of the chain put the URL of the request into their results. *)
Definition chain_labels_results : Prop :=
  forall a rq w r,
    In a (adapters self) -> fst (fetch a rq w) = Ok r -> result_url r = request_url rq.

(** The state of a freshly built scraper in the world [w]. *)
Definition initial_state (w : World) : State :=
  mkState w ∅ (max_parallel_fetches (config self)) [].

(** *** Coroutines running together *)

(** A task of [asyncio.gather]: between two awaits, or waiting for a
    fetch that it has started. *)
Inductive Task : Type :=
| Running (p : Prog ScrapeResult)
| Fetching (adapter : SourceAdapter) (request : ScrapeRequest)
           (k : res ScrapeResult -> Prog ScrapeResult).

(** One step of one task on the shared state.  [asyncio.Semaphore] is a
    counter: a task at [Acquire] moves only while a permit is left, and
    takes it; [Release] gives one back.  Which of several waiting tasks
    moves first is left open.  A fetch starts in one step and completes
    in a later one; its effect on the world is taken at its completion. *)
Inductive task_step : State -> Task -> State -> Task -> Prop :=
| step_get st url k r c :
    _get_cached (time_time (world st)) url (cache st) = (r, c) ->
    task_step st (Running (GetCached url k))
              (mkState (world st) c (permits st) (trace st)) (Running (k r))
| step_set st url result k :
    task_step st (Running (SetCached url result k))
              (mkState (world st)
                 (_set_cached (time_time (world st))
                    (per_run_cache_ttl_s (config self)) url result (cache st))
                 (permits st) (trace st))
              (Running k)
| step_acquire st k :
    0 < permits st ->
    task_step st (Running (Acquire k))
              (mkState (world st) (cache st) (permits st - 1) (trace st)) (Running k)
| step_release st k :
    task_step st (Running (Release k))
              (mkState (world st) (cache st) (permits st + 1) (trace st)) (Running k)
| step_fetch_start st a rq k :
    task_step st (Running (AwaitFetch a rq k)) st (Fetching a rq k)
| step_fetch_end st a rq k outcome w :
    fetch a rq (world st) = (outcome, w) ->
    task_step st (Fetching a rq k)
              (mkState w (cache st) (permits st)
                 (trace st ++ [EvFetch (name a) (request_url rq) outcome]))
              (Running (k outcome))
| step_sleep st d k :
    task_step st (Running (AwaitSleep d k))
              (mkState (asyncio_sleep d (world st)) (cache st) (permits st)
                 (trace st ++ [EvSleep d]))
              (Running k).

(** The event loop picks one task and lets it take a step. *)
Inductive loop_step : State * list Task -> State * list Task -> Prop :=
| loop_pick st st' before t t' after :
    task_step st t st' t' ->
    loop_step (st, before ++ t :: after) (st', before ++ t' :: after).

Inductive reachable (c0 : State * list Task) : State * list Task -> Prop :=
| reach_start : reachable c0 c0
| reach_step c c' : reachable c0 c -> loop_step c c' -> reachable c0 c'.

(** A task with its permit flag. *)
Definition task_gated (b : bool) (t : Task) : Prop :=
  match t with
  | Running p => gated b p
  | Fetching _ _ k => b = true /\ forall o, gated true (k o)
  end.

(** The number of permits that the tasks hold, by their flags. *)
Definition held (flags : list bool) : Z :=
  Z.of_nat (length (List.filter (fun b : bool => b) flags)).

Definition is_fetching (t : Task) : bool :=
  match t with Fetching _ _ _ => true | Running _ => false end.

(** The number of fetches in flight. *)
Definition in_flight (tasks : list Task) : nat :=
  length (List.filter is_fetching tasks).

(** The invariant of the event loop: every task carries a flag, and the
    permits left plus the permits held make up the size of the semaphore. *)
Definition semaphore_invariant (size : Z) (c : State * list Task) : Prop :=
  exists flags,
    Forall2 task_gated flags (snd c)
    /\ permits (fst c) + held flags = size
    /\ 0 <= permits (fst c).


(** * Properties *)

(** ** Strings *)

Lemma endswith_cons (suf : string) (a : ascii) (r : string) :
  Str.endswith suf (String a r) = String.eqb suf (String a r) || Str.endswith suf r.
Proof. reflexivity. Qed.

Lemma endswith_refl (s : string) : Str.endswith s s = true.
Proof.
  destruct s as [|a r]; [reflexivity|].
  rewrite endswith_cons, String.eqb_refl. reflexivity.
Qed.

Lemma endswith_lower (suf s : string) :
  Str.endswith suf s = true -> Str.endswith (Str.lower suf) (Str.lower s) = true.
Proof.
  induction s as [|a r IH]; intros H.
  - apply String.eqb_eq in H. subst suf. reflexivity.
  - rewrite endswith_cons in H. apply orb_true_iff in H. destruct H as [H|H].
    + apply String.eqb_eq in H. subst suf. apply endswith_refl.
    + change (Str.lower (String a r)) with (String (Str.lower_char a) (Str.lower r)).
      rewrite endswith_cons, (IH H). apply orb_true_r.
Qed.

Lemma endswith_csv_not_json (s : string) :
  Str.endswith ".csv" s = true -> Str.endswith ".json" s = false.
Proof.
  induction s as [|a r IH]; intros H.
  - discriminate.
  - rewrite endswith_cons in H. apply orb_true_iff in H. destruct H as [H|H].
    + apply String.eqb_eq in H. rewrite <- H. reflexivity.
    + rewrite endswith_cons, (IH H), orb_false_r.
      destruct (String.eqb ".json" (String a r)) eqn:E; [|reflexivity].
      apply String.eqb_eq in E. injection E as _ Er. subst r. discriminate.
Qed.

Lemma count_append (c : ascii) (a b : string) :
  Str.count c (a +:+ b) = (Str.count c a + Str.count c b)%nat.
Proof.
  induction a as [|x r IH]; [reflexivity|].
  change (String x r +:+ b) with (String x (r +:+ b)).
  simpl. rewrite IH. destruct (Ascii.eqb x c); reflexivity.
Qed.

Lemma count_join_nl (parts : list string) :
  Forall (fun p => Str.count newline p = 0%nat) parts ->
  Str.count newline (Str.join nl parts) = Nat.pred (length parts).
Proof.
  induction 1 as [|p rest Hp Hrest IH]; [reflexivity|].
  destruct rest as [|q rest'].
  - simpl. exact Hp.
  - change (Str.join nl (p :: q :: rest')) with (p +:+ nl +:+ Str.join nl (q :: rest')).
    rewrite !count_append, Hp, IH. reflexivity.
Qed.

(** ** [classify_url] *)

(** C7 (as amended).  For a URL that [urlparse] accepts, the tag is
    decided by the first rule that applies, in the order wikipedia,
    json_api, csv, xml, pdf, html, on the lower-cased host and path; a
    path that ends in ".csv" gives "csv" for every host that does not
    contain "wikipedia.org", provided the path does not contain "api" and
    the query does not contain "format=json". *)
Theorem classify_url_priority (url : string) (parsed : ParseResult) :
  urlparse url = Ok parsed ->
  let host := Str.lower (netloc parsed) in
  let pth := Str.lower (path parsed) in
  let wiki := Str.contains "wikipedia.org" host in
  let jsn := Str.endswith ".json" pth || Str.contains "api" pth
             || Str.contains "format=json" (query parsed) in
  let csv := Str.endswith ".csv" pth in
  let xml := Str.endswith ".xml" pth in
  let pdf := Str.endswith ".pdf" pth in
  (wiki = true -> classify_url url = Ok "wikipedia") /\
  (wiki = false -> jsn = true -> classify_url url = Ok "json_api") /\
  (wiki = false -> jsn = false -> csv = true -> classify_url url = Ok "csv") /\
  (wiki = false -> jsn = false -> csv = false -> xml = true ->
   classify_url url = Ok "xml") /\
  (wiki = false -> jsn = false -> csv = false -> xml = false -> pdf = true ->
   classify_url url = Ok "pdf") /\
  (wiki = false -> jsn = false -> csv = false -> xml = false -> pdf = false ->
   classify_url url = Ok "html") /\
  (Str.endswith ".csv" (path parsed) = true ->
   wiki = false -> Str.contains "api" pth = false ->
   Str.contains "format=json" (query parsed) = false ->
   classify_url url = Ok "csv").
Proof.
  intros Hp host pth wiki jsn csv xml pdf.
  unfold classify_url. rewrite Hp.
  fold host pth. fold wiki. fold jsn. fold csv xml pdf.
  repeat split.
  - intros ->. reflexivity.
  - intros -> ->. reflexivity.
  - intros -> -> ->. reflexivity.
  - intros -> -> -> ->. reflexivity.
  - intros -> -> -> -> ->. reflexivity.
  - intros -> -> -> -> ->. reflexivity.
  - intros Hcsv Hw Hapi Hq.
    assert (Hc : csv = true) by (apply (endswith_lower ".csv"), Hcsv).
    assert (Hj : jsn = false).
    { unfold jsn. rewrite Hapi, Hq, (endswith_csv_not_json pth Hc). reflexivity. }
    rewrite Hw, Hj, Hc. reflexivity.
Qed.

(** ** [format_resolution_snapshot] *)

Section Sorting.

Context {A : Type} (key : A -> Z).

Lemma insert_desc_perm (x : A) (l : list A) :
  Permutation (insert_desc key x l) (x :: l).
Proof.
  induction l as [|y r IH]; simpl; [reflexivity|].
  destruct (key x <? key y).
  - rewrite IH. apply perm_swap.
  - reflexivity.
Qed.

Lemma sorted_desc_perm (l : list A) : Permutation (sorted_desc key l) l.
Proof.
  induction l as [|x r IH]; simpl; [reflexivity|].
  rewrite insert_desc_perm. apply perm_skip, IH.
Qed.

Lemma insert_desc_sorted (x : A) (l : list A) :
  StronglySorted (desc key) l -> StronglySorted (desc key) (insert_desc key x l).
Proof.
  induction 1 as [|y r Hs IH Hall]; simpl.
  - repeat constructor.
  - destruct (key x <? key y) eqn:E.
    + constructor; [exact IH|].
      apply List.Forall_forall. intros z Hz.
      apply (Permutation_in _ (insert_desc_perm x r)) in Hz.
      destruct Hz as [<-|Hz].
      * unfold desc. apply Z.ltb_lt in E. lia.
      * rewrite List.Forall_forall in Hall. apply Hall, Hz.
    + apply Z.ltb_ge in E. constructor.
      * constructor; assumption.
      * constructor; [exact E|].
        eapply List.Forall_impl; [|exact Hall].
        intros z Hz. unfold desc in *. lia.
Qed.

Lemma sorted_desc_sorted (l : list A) : StronglySorted (desc key) (sorted_desc key l).
Proof.
  induction l as [|x r IH]; simpl; [constructor|].
  apply insert_desc_sorted, IH.
Qed.

Lemma insert_desc_stable (rk : Z) (x : A) (l : list A) :
  List.filter (fun a => key a =? rk) (insert_desc key x l)
  = List.filter (fun a => key a =? rk) (x :: l).
Proof.
  induction l as [|y r IH]; [reflexivity|].
  simpl insert_desc. destruct (key x <? key y) eqn:E; [|reflexivity].
  apply Z.ltb_lt in E.
  simpl List.filter in *. rewrite IH.
  destruct (key x =? rk) eqn:Ex, (key y =? rk) eqn:Ey; try reflexivity.
  apply Z.eqb_eq in Ex, Ey. lia.
Qed.

Lemma sorted_desc_stable (rk : Z) (l : list A) :
  List.filter (fun a => key a =? rk) (sorted_desc key l)
  = List.filter (fun a => key a =? rk) l.
Proof.
  induction l as [|x r IH]; [reflexivity|].
  simpl sorted_desc. rewrite insert_desc_stable. simpl. rewrite IH. reflexivity.
Qed.

Lemma firstn_sorted (n : nat) (l : list A) :
  StronglySorted (desc key) l -> StronglySorted (desc key) (firstn n l).
Proof.
  intros H. revert n. induction H as [|y r Hs IH Hall]; intros [|n]; simpl;
    try constructor.
  - apply IH.
  - rewrite List.Forall_forall in *. intros z Hz. apply Hall.
    rewrite <- (firstn_skipn n r). apply in_or_app. left. exact Hz.
Qed.

End Sorting.

(** C9.  The empty list gives the fixed sentence.  For a non-empty list
    and a count [max_items] that is not negative, the signals are sorted
    by rank (high 3, medium 2, anything else 1), descending and stably;
    the first [max_items] of them are rendered, one entry of [lines] each,
    and joined by newlines; so there are at most [max_items] lines, and
    they go from high to low.  When no rendered entry contains a newline
    of its own, the text has one newline less than it has entries. *)
Theorem format_resolution_snapshot_spec (signals : list ResolutionSignal) (max_items : Z) :
  format_resolution_snapshot [] max_items
    = "No structured resolution-source signals extracted." /\
  (_confidence_rank "high" = 3 /\ _confidence_rank "medium" = 2
   /\ _confidence_rank "low" = 1) /\
  (signals <> [] -> 0 <= max_items ->
   let ordered := sorted_desc rank signals in
   let chosen := firstn (Z.to_nat max_items) ordered in
   Permutation ordered signals /\
   StronglySorted (desc rank) ordered /\
   (forall rk, List.filter (fun s => rank s =? rk) ordered
               = List.filter (fun s => rank s =? rk) signals) /\
   snapshot_lines signals max_items = map snapshot_line chosen /\
   format_resolution_snapshot signals max_items
     = Str.join nl (map snapshot_line chosen) /\
   length chosen = Nat.min (Z.to_nat max_items) (length signals) /\
   Z.of_nat (length (snapshot_lines signals max_items)) <= max_items /\
   StronglySorted (desc rank) chosen /\
   (Forall (fun s => Str.count newline (snapshot_line s) = 0%nat) chosen ->
    Str.count newline (format_resolution_snapshot signals max_items)
    = Nat.pred (length chosen))).
Proof.
  split; [reflexivity|]. split; [repeat split|].
  intros Hne Hmax ordered chosen.
  assert (Hlines : snapshot_lines signals max_items = map snapshot_line chosen).
  { unfold snapshot_lines, slice_to.
    destruct (max_items <? 0) eqn:E; [apply Z.ltb_lt in E; lia|reflexivity]. }
  assert (Hlen : length chosen = Nat.min (Z.to_nat max_items) (length signals)).
  { unfold chosen. rewrite length_firstn. f_equal.
    apply Permutation_length, sorted_desc_perm. }
  repeat split.
  - apply sorted_desc_perm.
  - apply sorted_desc_sorted.
  - intros rk. apply sorted_desc_stable.
  - exact Hlines.
  - unfold format_resolution_snapshot. rewrite Hlines.
    destruct signals; [contradiction|reflexivity].
  - exact Hlen.
  - rewrite Hlines, length_map, Hlen. lia.
  - apply firstn_sorted, sorted_desc_sorted.
  - intros Hnl. unfold format_resolution_snapshot. rewrite Hlines.
    destruct signals; [contradiction|].
    rewrite count_join_nl, length_map; [reflexivity|].
    apply List.Forall_map. exact Hnl.
Qed.

(** ** The JSON walk *)

Lemma visit_order_nil (b : nat) : visit_order b [] = [].
Proof. destruct b; reflexivity. Qed.

Lemma visit_order_length (b : nat) (q : list (string * JValue)) :
  (length (visit_order b q) <= b)%nat.
Proof.
  revert q. induction b as [|b IH]; intros q; simpl; [lia|].
  destruct q as [|[p c] rest]; simpl; [lia|].
  specialize (IH (rest ++ children p c)). lia.
Qed.

Lemma walk_queue_visited (b : nat) (q : list (string * JValue)) (v : nat) :
  (snd (walk_queue b q v) <= v + b)%nat.
Proof.
  revert q v. induction b as [|b IH]; intros q v; simpl; [lia|].
  destruct q as [|[p c] rest]; simpl; [lia|].
  assert (H1 := IH rest (S v)).
  assert (H2 := IH (rest ++ children p c) (S v)).
  destruct c; simpl in *; lia.
Qed.

Lemma walk_queue_first_numeric (b : nat) (q : list (string * JValue)) (v : nat) :
  fst (walk_queue b q v) = first_numeric_leaf (visit_order b q).
Proof.
  revert q v. induction b as [|b IH]; intros q v; simpl; [reflexivity|].
  destruct q as [|[p c] rest]; simpl; [reflexivity|].
  destruct c; simpl; try apply IH; try reflexivity.
  rewrite app_nil_r. apply IH.
Qed.

Lemma visit_order_app (q1 q2 : list (string * JValue)) (b : nat) :
  visit_order b (q1 ++ q2)
  = firstn b (q1 ++ visit_order (b - length q1) (q2 ++ kids q1)).
Proof.
  revert b q2. induction q1 as [|[p c] q1 IH]; intros b q2.
  - simpl. rewrite Nat.sub_0_r, app_nil_r.
    symmetry. apply firstn_all2, visit_order_length.
  - destruct b as [|b]; [reflexivity|].
    simpl. f_equal. rewrite <- app_assoc, IH, <- app_assoc. reflexivity.
Qed.

Lemma visit_order_levels (n b : nat) (q : list (string * JValue)) :
  (b <= n)%nat -> visit_order b q = firstn b (level_order n q).
Proof.
  revert b q. induction n as [|n IH]; intros b q Hb.
  - replace b with 0%nat by lia. reflexivity.
  - destruct q as [|x q'].
    + rewrite visit_order_nil. simpl. symmetry. apply firstn_nil.
    + set (q := x :: q').
      change (level_order (S n) q) with (q ++ level_order n (kids q)).
      rewrite <- (app_nil_r q) at 1. rewrite visit_order_app.
      change ([] ++ kids q) with (kids q).
      rewrite (IH (b - length q)%nat (kids q)) by (subst q; simpl; lia).
      rewrite !firstn_app, firstn_firstn, Nat.min_id. reflexivity.
Qed.

Lemma assoc_in_keys {A} (k : string) (fields : list (string * A)) :
  in_list k (map fst fields) = true -> exists v, assoc k fields = Some v.
Proof.
  induction fields as [|[k' v'] rest IH]; simpl; [discriminate|].
  intros H. destruct (String.eqb k' k) eqn:E; [eauto|].
  apply orb_true_iff in H. destruct H as [H|H]; [|auto].
  rewrite String.eqb_sym in H. congruence.
Qed.

Lemma omap_all_some {A B} (f : A -> option B) (g : A -> B) (l : list A) :
  (forall a, In a l -> f a = Some (g a)) -> omap f l = map g l.
Proof.
  induction l as [|a r IH]; intros H; [reflexivity|].
  change (omap f (a :: r))
    with (match f a with Some y => y :: omap f r | None => omap f r end).
  rewrite (H a) by (left; reflexivity).
  rewrite IH; [reflexivity|]. intros b Hb. apply H. right. exact Hb.
Qed.

(** The keys of an object in the order in which the walk enqueues them. *)
Lemma children_object_keys (path : string) (fields : list (string * JValue)) :
  map fst (children path (JObj fields))
  = map (fun k => path +:+ "." +:+ k)
        (List.filter (fun k => in_list k (map fst fields)) priority_keys
         ++ List.filter (fun k => negb (in_list k priority_keys)) (map fst fields)).
Proof.
  unfold children.
  set (ks := List.filter _ priority_keys ++ List.filter _ (map fst fields)).
  rewrite (omap_all_some _
             (fun k => (path +:+ "." +:+ k,
                        match assoc k fields with Some v => v | None => JNull end))).
  - rewrite map_map. reflexivity.
  - intros k Hk. destruct (assoc_in_keys k fields) as [v Hv].
    + unfold ks in Hk. apply in_app_or in Hk. destruct Hk as [Hk|Hk];
        apply filter_In in Hk.
      * apply Hk.
      * destruct Hk as [Hk _]. unfold in_list. apply existsb_exists.
        exists k. split; [exact Hk|apply String.eqb_refl].
    + rewrite Hv. reflexivity.
Qed.

Lemma children_object_values (path : string) (fields : list (string * JValue))
    (p : string) (v : JValue) :
  In (p, v) (children path (JObj fields)) ->
  exists k, p = path +:+ "." +:+ k /\ assoc k fields = Some v.
Proof.
  unfold children. intros H. apply list_elem_of_In, list_elem_of_omap in H.
  destruct H as (k & _ & Hk). destruct (assoc k fields) as [v'|] eqn:E; [|discriminate].
  injection Hk as <- <-. eauto.
Qed.

Lemma children_array (path : string) (items : list JValue) :
  length (children path (JArr items)) = Nat.min 20 (length items) /\
  forall i item, (i < 20)%nat -> items !! i = Some item ->
    children path (JArr items) !! i
    = Some (path +:+ "[" +:+ Str.of_N (N.of_nat i) +:+ "]", item).
Proof.
  unfold children. split.
  - rewrite length_imap, length_firstn. reflexivity.
  - intros i item Hi Hitem. rewrite list_lookup_imap.
    change (firstn 20 items) with (take 20 items).
    rewrite lookup_take_lt by exact Hi. rewrite Hitem. reflexivity.
Qed.

(** C8.  The walk takes at most 2000 nodes out of its queue.  Its result
    is the first int or float, booleans excluded, among the first 2000
    nodes of the payload in breadth-first order, with the path of that
    node, and it is [None] when there is none.  The children of an object
    are its priority keys that are present, in the order of the priority
    list, then its other keys in their own order; the children of an
    array are its first 20 elements.  The JSON adapter turns [None] into a
    failed result.  The payload with "other": 5 and "total": 9 gives 9. *)
Theorem extract_numeric_value_breadth_first (payload : JValue) :
  max_nodes = 2000%nat /\
  (snd (walk_queue max_nodes [("$", payload)] 0) <= max_nodes)%nat /\
  _extract_numeric_value payload
    = first_numeric_leaf (firstn max_nodes (level_order max_nodes [("$", payload)])) /\
  (forall path fields,
      map fst (children path (JObj fields))
      = map (fun k => path +:+ "." +:+ k)
            (List.filter (fun k => in_list k (map fst fields)) priority_keys
             ++ List.filter (fun k => negb (in_list k priority_keys)) (map fst fields))
      /\ forall p v, In (p, v) (children path (JObj fields)) ->
                     exists k, p = path +:+ "." +:+ k /\ assoc k fields = Some v) /\
  (forall path items,
      length (children path (JArr items)) = Nat.min 20 (length items)
      /\ forall i item, (i < 20)%nat -> items !! i = Some item ->
           children path (JArr items) !! i
           = Some (path +:+ "[" +:+ Str.of_N (N.of_nat i) +:+ "]", item)) /\
  (forall cfg request w response w1,
      get_checked cfg (request_url request) []
        [("User-Agent", user_agent cfg); ("Accept", "application/json, text/plain, */*")] w
      = (Ok response, w1) ->
      json response = Ok payload ->
      Str.contains "json" (Str.lower (content_type response)) = true ->
      _extract_numeric_value payload = None ->
      json_fetch cfg request w
      = (Ok (failure (request_url request) "No numeric value found in JSON payload."), w1)) /\
  _extract_numeric_value (JObj [("other", JInt 5); ("total", JInt 9)])
    = Some ("$.total", VInt 9).
Proof.
  split; [reflexivity|]. split; [apply (walk_queue_visited max_nodes _ 0)|].
  split.
  { unfold _extract_numeric_value.
    rewrite walk_queue_first_numeric, (visit_order_levels max_nodes) by lia.
    reflexivity. }
  split.
  { intros pth fields. split.
    - apply children_object_keys.
    - apply children_object_values. }
  split; [intros pth items; apply children_array|].
  split; [|vm_compute; reflexivity].
  intros cfg request w response w1 Hget Hjson Hct Hnone.
  unfold json_fetch. rewrite Hget, Hct, Hjson, Hnone. reflexivity.
Qed.

(** ** The CSV adapter *)






(** ** Running coroutines *)

Lemma run_bind {A B} (p : Prog A) (f : A -> Prog B) (st : State) :
  run (bind p f) st
  = match run p st with
    | (Returned a, st') => run (f a) st'
    | (Raised msg, st') => (Raised msg, st')
    | (Blocked, st') => (Blocked, st')
    end.
Proof.
  revert st. induction p as [a|msg|url k IH|url result k IH|k IH|k IH|a rq k IH|d k IH];
    intros st; simpl; try reflexivity; try apply IH.
  - destruct (_get_cached _ _ _) as [r c]. apply IH.
  - destruct (0 <? permits st); [apply IH|reflexivity].
  - destruct (fetch a rq (world st)) as [o w]. apply IH.
Qed.

Lemma run_releasing {A} (body : Prog A) (st : State) :
  run (releasing body) st
  = match run body st with
    | (Returned a, st') => (Returned a, with_permits st' (permits st' + 1))
    | (Raised msg, st') => (Raised msg, with_permits st' (permits st' + 1))
    | (Blocked, st') => (Blocked, st')
    end.
Proof.
  revert st.
  induction body as [a|msg|url k IH|url result k IH|k IH|k IH|a rq k IH|d k IH];
    intros st; simpl; try reflexivity; try apply IH.
  - destruct (_get_cached _ _ _) as [r c]. apply IH.
  - destruct (0 <? permits st); [apply IH|reflexivity].
  - destruct (fetch a rq (world st)) as [o w]. apply IH.
Qed.

(** ** The retry loop *)

Lemma last_cons_default {A} (x d : A) (l : list A) :
  List.last (x :: l) d = List.last l x.
Proof.
  revert x d. induction l as [|y r IH]; intros x d; [reflexivity|].
  change (List.last (x :: y :: r) d) with (List.last (y :: r) d).
  rewrite !IH. reflexivity.
Qed.

Lemma last_error_step (o : res ScrapeResult) (rest : list (res ScrapeResult))
    (last_error : string) :
  List.last (omap error_text (o :: rest)) last_error
  = List.last (omap error_text rest)
              (match error_text o with Some e => e | None => last_error end).
Proof.
  change (omap error_text (o :: rest))
    with (match error_text o with
          | Some e => e :: omap error_text rest
          | None => omap error_text rest
          end).
  destruct (error_text o); [apply last_cons_default|reflexivity].
Qed.

Lemma error_text_result (result : ScrapeResult) (last_error : string) :
  match error result with
  | Some (String _ _ as e) => e
  | _ => last_error
  end
  = match error_text (Ok result) with Some e => e | None => last_error end.
Proof. unfold error_text, truthy. destruct (error result) as [[|c s]|]; reflexivity. Qed.

Lemma retry_loop_run (adapter : SourceAdapter) (request : ScrapeRequest)
    (total_attempts : Z) (remaining : nat) :
  forall (attempt : Z) (last_error : string) (st : State),
    total_attempts - attempt = Z.of_nat remaining ->
    exists outcomes result st',
      run (retry_loop adapter request total_attempts remaining attempt last_error) st
      = (Returned result, st')
      /\ trace st' = trace st ++ retry_trace (name adapter) (request_url request)
                                   (retry_backoff_s (config self)) attempt outcomes
      /\ cache st' = cache st /\ permits st' = permits st
      /\ (length outcomes <= remaining)%nat
      /\ (remaining <> O -> outcomes <> [])
      /\ Forall (fun o => exists w, fst (fetch adapter request w) = o) outcomes
      /\ ((exists init, outcomes = init ++ [Ok result] /\ ok result = true
                        /\ Forall (fun o => failed_attempt o = true) init)
          \/ (length outcomes = remaining
              /\ Forall (fun o => failed_attempt o = true) outcomes
              /\ result = retry_failure adapter request
                            (List.last (omap error_text outcomes) last_error))).
Proof.
  induction remaining as [|n IH]; intros attempt last_error st Hrem.
  - exists [], (retry_failure adapter request last_error), st. simpl.
    rewrite app_nil_r.
    split; [reflexivity|]. split; [reflexivity|]. split; [reflexivity|].
    split; [reflexivity|]. split; [lia|]. split; [congruence|].
    split; [constructor|].
    right. split; [reflexivity|]. split; [constructor|reflexivity].
  - cbn [retry_loop run].
    destruct (fetch adapter request (world st)) as [o w1] eqn:F.
    set (st1 := mkState w1 (cache st) (permits st)
                        (trace st ++ [EvFetch (name adapter) (request_url request) o])).
    assert (Hw : exists w, fst (fetch adapter request w) = o)
      by (exists (world st); rewrite F; reflexivity).
    (* the attempt is a failure that leaves [le] as last error *)
    assert (Hfail : forall le,
      failed_attempt o = true ->
      le = match error_text o with Some e => e | None => last_error end ->
      exists outcomes result st',
        run (if attempt <? total_attempts - 1
             then AwaitSleep (Qmult (retry_backoff_s (config self)) (inject_Z (2 ^ attempt)))
                    (retry_loop adapter request total_attempts n (attempt + 1) le)
             else retry_loop adapter request total_attempts n (attempt + 1) le) st1
        = (Returned result, st')
        /\ trace st' = trace st ++ retry_trace (name adapter) (request_url request)
                                     (retry_backoff_s (config self)) attempt outcomes
        /\ cache st' = cache st /\ permits st' = permits st
        /\ (length outcomes <= S n)%nat
        /\ (S n <> O -> outcomes <> [])
        /\ Forall (fun o => exists w, fst (fetch adapter request w) = o) outcomes
        /\ ((exists init, outcomes = init ++ [Ok result] /\ ok result = true
                          /\ Forall (fun o => failed_attempt o = true) init)
            \/ (length outcomes = S n
                /\ Forall (fun o => failed_attempt o = true) outcomes
                /\ result = retry_failure adapter request
                              (List.last (omap error_text outcomes) last_error)))).
    { intros le Hf Hle. destruct n as [|n'].
      - replace (attempt <? total_attempts - 1) with false
          by (symmetry; apply Z.ltb_ge; lia).
        exists [o], (retry_failure adapter request le), st1.
        split; [reflexivity|]. split; [reflexivity|]. split; [reflexivity|].
        split; [reflexivity|]. split; [simpl; lia|]. split; [congruence|].
        split; [constructor; [exact Hw|constructor]|].
        right. split; [reflexivity|]. split; [constructor; [exact Hf|constructor]|].
        rewrite last_error_step, <- Hle. reflexivity.
      - replace (attempt <? total_attempts - 1) with true
          by (symmetry; apply Z.ltb_lt; lia).
        cbn [run].
        set (st2 := mkState _ _ _ _).
        destruct (IH (attempt + 1) le st2 ltac:(lia))
          as (outcomes & result & st' & Hrun & Htr & Hc & Hp & Hlen & Hne & Hall & Hres).
        exists (o :: outcomes), result, st'.
        split; [exact Hrun|].
        split.
        { rewrite Htr. unfold st2, st1. cbn [trace]. rewrite <- !app_assoc.
          destruct outcomes as [|o' outcomes']; [exfalso; apply Hne; congruence|].
          reflexivity. }
        split; [rewrite Hc; reflexivity|]. split; [rewrite Hp; reflexivity|].
        split; [simpl; lia|]. split; [congruence|].
        split; [constructor; assumption|].
        destruct Hres as [(init & -> & Hok & Hinit)|(Hl & Hf' & ->)].
        + left. exists (o :: init).
          split; [reflexivity|]. split; [exact Hok|constructor; assumption].
        + right. split; [simpl; lia|]. split; [constructor; assumption|].
          rewrite last_error_step, <- Hle. reflexivity. }
    destruct o as [result|msg].
    + destruct (ok result) eqn:Hok.
      * exists [Ok result], result, st1. cbn [run].
        split; [reflexivity|]. split; [reflexivity|]. split; [reflexivity|].
        split; [reflexivity|]. split; [simpl; lia|]. split; [congruence|].
        split; [constructor; [exact Hw|constructor]|].
        left. exists []. split; [reflexivity|]. split; [exact Hok|constructor].
      * apply Hfail; [simpl; rewrite Hok; reflexivity|apply error_text_result].
    + apply Hfail; reflexivity.
Qed.

(** C3.  With [max_retries] not negative, the retry loop of an adapter
    makes at least one and at most [max_retries + 1] attempts.  Between
    attempt [i] and the next one it sleeps [retry_backoff_s * 2^i], [i]
    counted from 0, and it does not sleep after the last attempt.  It
    stops at the first attempt that returns a successful result, and
    returns it; when all [max_retries + 1] attempts raise or return a
    result that is not a success, it returns a failure whose error is the
    adapter name and the most recent error text.  With [max_retries = 2]
    an adapter that always fails is tried exactly 3 times, with sleeps of
    [retry_backoff_s] and twice that. *)
Theorem fetch_with_retries_attempts (adapter : SourceAdapter) (request : ScrapeRequest)
    (st : State) :
  0 <= max_retries (config self) ->
  let total := Z.to_nat (max_retries (config self) + 1) in
  let backoff := retry_backoff_s (config self) in
  let nm := name adapter in
  let url := request_url request in
  exists outcomes result st',
    run (_fetch_with_retries adapter request) st = (Returned result, st')
    /\ trace st' = trace st ++ retry_trace nm url backoff 0 outcomes
    /\ (1 <= length outcomes <= total)%nat
    /\ Forall (fun o => exists w, fst (fetch adapter request w) = o) outcomes
    /\ ((exists init, outcomes = init ++ [Ok result] /\ ok result = true
                      /\ Forall (fun o => failed_attempt o = true) init)
        \/ (length outcomes = total
            /\ Forall (fun o => failed_attempt o = true) outcomes
            /\ result = mkScrapeResult url false []
                          (Some (nm +:+ ": " +:+ most_recent_error outcomes))))
    /\ (max_retries (config self) = 2 ->
        (forall w, failed_attempt (fst (fetch adapter request w)) = true) ->
        exists o1 o2 o3,
          outcomes = [o1; o2; o3]
          /\ trace st' = trace st ++
                [EvFetch nm url o1; EvSleep (Qmult backoff (inject_Z (2 ^ 0)));
                 EvFetch nm url o2; EvSleep (Qmult backoff (inject_Z (2 ^ 1)));
                 EvFetch nm url o3]
          /\ Qeq (Qmult backoff (inject_Z (2 ^ 0))) backoff
          /\ Qeq (Qmult backoff (inject_Z (2 ^ 1))) (Qmult (inject_Z 2) backoff)
          /\ ok result = false
          /\ error result = Some (nm +:+ ": " +:+ most_recent_error [o1; o2; o3])).
Proof.
  intros Hmax total backoff nm url.
  unfold _fetch_with_retries.
  replace (Z.max 1 (max_retries (config self) + 1)) with (max_retries (config self) + 1)
    by lia.
  fold total.
  destruct (retry_loop_run adapter request (max_retries (config self) + 1) total 0
              "Unknown fetch error." st)
    as (outcomes & result & st' & Hrun & Htr & _ & _ & Hlen & Hne & Hall & Hres).
  { unfold total. lia. }
  exists outcomes, result, st'.
  split; [exact Hrun|]. split; [exact Htr|].
  assert (Hpos : (1 <= length outcomes)%nat).
  { destruct outcomes; [exfalso; apply Hne; [unfold total; lia|reflexivity]|simpl; lia]. }
  split; [lia|]. split; [exact Hall|]. split; [exact Hres|].
  intros H2 Hperm.
  destruct Hres as [(init & -> & Hok & _)|(Hl & Hf & ->)].
  - exfalso. apply Forall_app in Hall. destruct Hall as [_ Hlast].
    inversion Hlast as [|o l [w Hw] _]; subst.
    specialize (Hperm w). rewrite Hw in Hperm. simpl in Hperm.
    rewrite Hok in Hperm. discriminate.
  - assert (Ht : total = 3%nat) by (unfold total; rewrite H2; reflexivity).
    rewrite Ht in Hl.
    destruct outcomes as [|o1 [|o2 [|o3 [|o4 rest]]]]; try discriminate.
    exists o1, o2, o3.
    split; [reflexivity|]. split; [exact Htr|].
    split; [change (inject_Z (2 ^ 0)) with 1%Q; apply Qmult_1_r|].
    split; [apply Qmult_comm|].
    split; reflexivity.
Qed.

(** The retry loop always returns; it leaves the cache and the semaphore
    alone, and what it returns is a success of the adapter or a failure
    with an error text and no signal. *)
Lemma fetch_with_retries_returns (adapter : SourceAdapter) (request : ScrapeRequest)
    (st : State) :
  exists result st',
    run (_fetch_with_retries adapter request) st = (Returned result, st')
    /\ cache st' = cache st /\ permits st' = permits st
    /\ (exists events, trace st' = trace st ++ events)
    /\ ((ok result = true
         /\ exists w, fst (fetch adapter request w) = Ok result)
        \/ (exists last_error,
               result = retry_failure adapter request last_error)).
Proof.
  unfold _fetch_with_retries.
  set (total := Z.max 1 (max_retries (config self) + 1)).
  destruct (retry_loop_run adapter request total (Z.to_nat total) 0
              "Unknown fetch error." st)
    as (outcomes & result & st' & Hrun & Htr & Hc & Hp & _ & _ & Hall & Hres).
  { unfold total. lia. }
  exists result, st'.
  split; [exact Hrun|]. split; [exact Hc|]. split; [exact Hp|].
  split; [eexists; exact Htr|].
  destruct Hres as [(init & -> & Hok & _)|(_ & _ & ->)].
  - left. split; [exact Hok|].
    apply Forall_app in Hall. destruct Hall as [_ Hlast].
    inversion Hlast as [|o l Hw _]; subst. exact Hw.
  - right. eexists. reflexivity.
Qed.

(** ** The adapter walk *)

Lemma last_meaningful_step (r : ScrapeResult) (results : list ScrapeResult)
    (fallback : option string) :
  List.last (List.filter truthy (map error (r :: results))) fallback
  = List.last (List.filter truthy (map error results)) (or_else (error r) fallback).
Proof.
  unfold or_else. simpl. destruct (truthy (error r)); [apply last_cons_default|reflexivity].
Qed.

Lemma adapter_walk_run (request : ScrapeRequest) (chain : list SourceAdapter) :
  Forall (fun a => exists b, can_handle a request = Ok b) chain ->
  forall (fallback : option string) (st : State),
  exists tried results st1,
    retries_in_turn request tried st results st1
    /\ cache st1 = cache st /\ permits st1 = permits st
    /\ (exists events, trace st1 = trace st ++ events)
    /\ (tried = [] -> st1 = st)
    /\ ((exists result init untried,
            results = init ++ [result]
            /\ accepted result = true
            /\ Forall rejected init
            /\ List.filter (capable request) chain = tried ++ untried
            /\ run (adapter_walk chain request fallback) st
               = (Returned (inl result),
                  with_cache st1
                    (_set_cached (time_time (world st1))
                       (per_run_cache_ttl_s (config self))
                       (request_url request) result (cache st1))))
        \/ (tried = List.filter (capable request) chain
            /\ Forall rejected results
            /\ run (adapter_walk chain request fallback) st
               = (Returned (inr (List.last (List.filter truthy (map error results))
                                           fallback)),
                  st1))).
Proof.
  induction 1 as [|a rest [b Hb] Hrest IH]; intros fallback st.
  - exists [], [], st.
    split; [constructor|]. split; [reflexivity|]. split; [reflexivity|].
    split; [exists []; rewrite app_nil_r; reflexivity|]. split; [reflexivity|].
    right. split; [reflexivity|]. split; [constructor|reflexivity].
  - assert (Hcap : capable request a = b)
      by (unfold capable; rewrite Hb; destruct b; reflexivity).
    cbn [adapter_walk List.filter]. rewrite Hcap, Hb.
    destruct b.
    + rewrite run_bind.
      destruct (fetch_with_retries_returns a request st)
        as (r & sta & Hrun & Hc & Hp & [ev Hev] & _).
      rewrite Hrun.
      destruct (ok r && nonempty (signals r)) eqn:Hacc.
      * exists [a], [r], sta.
        split; [econstructor; [exact Hrun|constructor]|].
        split; [exact Hc|]. split; [exact Hp|]. split; [exists ev; exact Hev|].
        split; [discriminate|].
        left. exists r, [], (List.filter (capable request) rest).
        split; [reflexivity|]. split; [exact Hacc|]. split; [constructor|].
        split; reflexivity.
      * destruct (IH (or_else (error r) fallback) sta)
          as (tried & results & st1 & Hturn & Hc1 & Hp1 & [ev1 Hev1] & _ & Hres).
        exists (a :: tried), (r :: results), st1.
        split; [econstructor; eassumption|].
        split; [congruence|]. split; [congruence|].
        split; [exists (ev ++ ev1); rewrite Hev1, Hev, app_assoc; reflexivity|].
        split; [discriminate|].
        destruct Hres as [(result & init & untried & -> & Ha & Hi & Hf & Hr)
                         |(-> & Hrej & Hr)].
        -- left. exists result, (r :: init), untried.
           split; [reflexivity|]. split; [exact Ha|].
           split; [constructor; [exact Hacc|exact Hi]|].
           split; [rewrite Hf; reflexivity|exact Hr].
        -- right. split; [reflexivity|].
           split; [constructor; [exact Hacc|exact Hrej]|].
           rewrite last_meaningful_step. exact Hr.
    + apply IH.
Qed.

Lemma retries_in_turn_nil (request : ScrapeRequest) (st st1 : State)
    (results : list ScrapeResult) :
  retries_in_turn request [] st results st1 -> results = [] /\ st1 = st.
Proof. inversion 1. split; reflexivity. Qed.

(** What [scrape_url] does when the cache has no live entry for the URL. *)
Lemma scrape_url_miss (request : ScrapeRequest) (st : State)
    (c : gmap string (Q * ScrapeResult)) :
  _get_cached (time_time (world st)) (request_url request) (cache st) = (None, c) ->
  0 < permits st ->
  Forall (fun a => exists b, can_handle a request = Ok b) (adapters self) ->
  let st0 := mkState (world st) c (permits st - 1) (trace st) in
  exists tried results st1 result st',
    run (scrape_url request) st = (Returned result, st')
    /\ retries_in_turn request tried st0 results st1
    /\ world st' = world st1 /\ trace st' = trace st1 /\ permits st' = permits st
    /\ cache st'
       = <[request_url request :=
             (Qplus (time_time (world st1))
                    (inject_Z (per_run_cache_ttl_s (config self))), result)]> c
    /\ (tried = [] -> st1 = st0)
    /\ ((exists init untried,
            results = init ++ [result]
            /\ accepted result = true
            /\ Forall rejected init
            /\ List.filter (capable request) (adapters self) = tried ++ untried)
        \/ (tried = List.filter (capable request) (adapters self)
            /\ Forall rejected results
            /\ result = mkScrapeResult (request_url request) false []
                          (last_meaningful_error results))).
Proof.
  intros Hget Hperm Hcan st0.
  destruct (adapter_walk_run request (adapters self) Hcan
              (Some "No adapter accepted this URL.") st0)
    as (tried & results & st1 & Hturn & Hc & Hp & _ & Hnil & Hres).
  unfold scrape_url. cbn [run]. rewrite Hget.
  rewrite run_bind. unfold async_with_semaphore. cbn [run world cache permits trace].
  replace (0 <? permits st) with true by (symmetry; apply Z.ltb_lt; exact Hperm).
  rewrite run_releasing. fold st0.
  destruct Hres as [(result & init & untried & -> & Ha & Hi & Hf & Hr)
                   |(-> & Hrej & Hr)]; rewrite Hr.
  - exists tried, (init ++ [result]), st1, result.
    eexists. split; [reflexivity|].
    split; [exact Hturn|]. cbn.
    split; [reflexivity|]. split; [reflexivity|]. split; [rewrite Hp; simpl; lia|].
    split; [unfold _set_cached; rewrite Hc; reflexivity|].
    split; [exact Hnil|].
    left. exists init, untried. repeat split; assumption.
  - eexists _, results, st1, _.
    eexists. split; [reflexivity|].
    split; [exact Hturn|]. cbn.
    split; [reflexivity|]. split; [reflexivity|]. split; [rewrite Hp; simpl; lia|].
    split; [unfold _set_cached; rewrite Hc; reflexivity|].
    split; [exact Hnil|].
    right. repeat split. exact Hrej.
Qed.

(** C1.  On a cache miss, with a free permit of the semaphore and adapters
    whose [can_handle] returns: the capable adapters of the chain are
    tried in chain order, each through its retry loop, up to the first
    one whose result is a success with a signal, and that result is
    returned; otherwise all capable adapters are tried and the result is
    a failure with the last meaningful error among their results.  When
    no adapter is capable, nothing is fetched and the error is exactly
    "No adapter accepted this URL.". *)
Theorem scrape_url_adapter_walk (request : ScrapeRequest) (st : State) :
  fst (_get_cached (time_time (world st)) (request_url request) (cache st)) = None ->
  0 < permits st ->
  Forall (fun a => exists b, can_handle a request = Ok b) (adapters self) ->
  let url := request_url request in
  let chain := List.filter (capable request) (adapters self) in
  let st0 := mkState (world st)
               (snd (_get_cached (time_time (world st)) url (cache st)))
               (permits st - 1) (trace st) in
  exists tried results st1 result st',
    run (scrape_url request) st = (Returned result, st')
    /\ retries_in_turn request tried st0 results st1
    /\ trace st' = trace st1
    /\ ((exists init untried,
            chain = tried ++ untried
            /\ results = init ++ [result]
            /\ Forall (fun r => accepted r = false) init
            /\ ok result = true /\ signals result <> [])
        \/ (tried = chain
            /\ Forall (fun r => accepted r = false) results
            /\ result = mkScrapeResult url false [] (last_meaningful_error results)))
    /\ (chain = [] ->
        result = mkScrapeResult url false [] (Some "No adapter accepted this URL.")
        /\ trace st' = trace st).
Proof.
  intros Hmiss Hperm Hcan. cbv zeta.
  set (chain := List.filter (capable request) (adapters self)).
  destruct (_get_cached (time_time (world st)) (request_url request) (cache st))
    as [o c] eqn:Hget.
  cbn [fst snd] in *. subst o.
  destruct (scrape_url_miss request st c Hget Hperm Hcan)
    as (tried & results & st1 & result & st' & Hrun & Hturn & _ & Htr & _ & _ & Hnil & Hres).
  exists tried, results, st1, result, st'.
  split; [exact Hrun|]. split; [exact Hturn|]. split; [exact Htr|].
  split.
  - destruct Hres as [(init & untried & Hr & Ha & Hi & Hf)|(Ht & Hrej & Hr)].
    + left. exists init, untried.
      split; [exact Hf|]. split; [exact Hr|]. split; [exact Hi|].
      unfold accepted in Ha. apply andb_true_iff in Ha. destruct Ha as [Hok Hsig].
      split; [exact Hok|]. destruct (signals result); [discriminate|congruence].
    + right. split; [exact Ht|]. split; [exact Hrej|exact Hr].
  - intros Hchain.
    assert (Htried : tried = []).
    { destruct Hres as [(init & untried & _ & _ & _ & Hf)|(Ht & _)].
      - fold chain in Hf. rewrite Hchain in Hf. symmetry in Hf.
        apply app_eq_nil in Hf. apply Hf.
      - fold chain in Ht. congruence. }
    subst tried. apply retries_in_turn_nil in Hturn. destruct Hturn as [-> ->].
    split; [|rewrite Htr; reflexivity].
    destruct Hres as [(init & untried & Hr & _)|(_ & _ & ->)].
    + destruct init; discriminate.
    + reflexivity.
Qed.

(** ** The cache *)

Lemma Qle_bool_false (x y : Q) : Qlt y x -> Qle_bool x y = false.
Proof.
  intros H. destruct (Qle_bool x y) eqn:E; [|reflexivity].
  apply Qle_bool_iff in E. exfalso. exact (Qlt_not_le _ _ H E).
Qed.


Lemma state_eta (st : State) :
  mkState (world st) (cache st) (permits st) (trace st) = st.
Proof. destruct st; reflexivity. Qed.



(** ** The semaphore *)

Lemma plain_bind {A B} (p : Prog A) (f : A -> Prog B) :
  plain p -> (forall a, plain (f a)) -> plain (bind p f).
Proof. intros Hp Hf. induction Hp; simpl; try constructor; auto. Qed.

Lemma gated_bind {A B} (b : bool) (p : Prog A) (f : A -> Prog B) :
  gated b p -> (forall a, gated false (f a)) -> gated b (bind p f).
Proof. intros Hp Hf. induction Hp; simpl; try constructor; auto. Qed.

Lemma gated_releasing {A} (body : Prog A) : plain body -> gated true (releasing body).
Proof. induction 1; simpl; repeat constructor; auto. Qed.

Lemma plain_retry_loop (adapter : SourceAdapter) (request : ScrapeRequest)
    (total : Z) (remaining : nat) (attempt : Z) (last_error : string) :
  plain (retry_loop adapter request total remaining attempt last_error).
Proof.
  revert attempt last_error.
  induction remaining as [|n IH]; intros attempt last_error; simpl; constructor.
  intros [result|msg].
  - destruct (ok result); [constructor|].
    destruct (attempt <? total - 1); [constructor|]; apply IH.
  - destruct (attempt <? total - 1); [constructor|]; apply IH.
Qed.

Lemma plain_adapter_walk (chain : list SourceAdapter) (request : ScrapeRequest)
    (fallback : option string) :
  plain (adapter_walk chain request fallback).
Proof.
  revert fallback. induction chain as [|a rest IH]; intros fallback; simpl.
  - constructor.
  - destruct (can_handle a request) as [[|]|msg]; [|apply IH|constructor].
    apply plain_bind; [apply plain_retry_loop|].
    intros result. destruct (ok result && nonempty (signals result)).
    + repeat constructor.
    + apply IH.
Qed.

Lemma gated_scrape_url (request : ScrapeRequest) : gated false (scrape_url request).
Proof.
  unfold scrape_url. constructor. intros [r|]; [constructor|].
  apply gated_bind.
  - unfold async_with_semaphore. constructor.
    apply gated_releasing, plain_adapter_walk.
  - intros [result|fallback]; repeat constructor.
Qed.

Lemma held_cons (b : bool) (flags : list bool) :
  held (b :: flags) = (if b then 1 else 0) + held flags.
Proof. unfold held. destruct b; simpl List.filter; simpl length; lia. Qed.

Lemma held_app (f1 f2 : list bool) : held (f1 ++ f2) = held f1 + held f2.
Proof. unfold held. rewrite List.filter_app, length_app. lia. Qed.

Lemma task_step_gated (st st' : State) (t t' : Task) (b : bool) :
  task_step st t st' t' -> task_gated b t ->
  exists b', task_gated b' t'
             /\ permits st' + (if b' then 1 else 0) = permits st + (if b then 1 else 0)
             /\ (0 <= permits st -> 0 <= permits st').
Proof.
  intros Hstep Hg. destruct Hstep; simpl in Hg.
  - inversion Hg; subst. exists b. simpl. repeat split; auto.
  - inversion Hg; subst. exists b. simpl. repeat split; auto.
  - inversion Hg; subst. exists true. simpl. repeat split; auto; lia.
  - inversion Hg; subst. exists false. simpl. repeat split; auto; lia.
  - inversion Hg; subst. exists true. simpl. repeat split; auto.
  - destruct Hg as [-> Hk]. exists true. simpl. repeat split; auto.
  - inversion Hg; subst. exists true. simpl. repeat split; auto.
Qed.

Lemma in_flight_le_held (flags : list bool) (tasks : list Task) :
  Forall2 task_gated flags tasks -> Z.of_nat (in_flight tasks) <= held flags.
Proof.
  induction 1 as [|b t flags tasks Hbt Hrest IH].
  - unfold in_flight, held. simpl. lia.
  - rewrite held_cons. unfold in_flight in *. simpl List.filter.
    destruct t as [p|a rq k]; simpl is_fetching; cbv iota.
    + destruct b; lia.
    + destruct Hbt as [-> _]. simpl length. lia.
Qed.

Lemma loop_step_invariant (size : Z) (c c' : State * list Task) :
  loop_step c c' -> semaphore_invariant size c -> semaphore_invariant size c'.
Proof.
  intros Hstep Hinv. destruct Hstep as [st st' before t t' after Ht].
  destruct Hinv as (flags & Hall & Hsum & Hpos).
  simpl in *.
  apply Forall2_app_inv_r in Hall.
  destruct Hall as (f1 & f2 & Hf1 & Hf2 & ->).
  inversion Hf2 as [|b t0 f2' after' Hb Hafter]; subst.
  destruct (task_step_gated _ _ _ _ b Ht Hb) as (b' & Hb' & Hp & Hpos').
  exists (f1 ++ b' :: f2'). simpl. split; [|split].
  - apply Forall2_app; [exact Hf1|]. constructor; assumption.
  - rewrite !held_app, !held_cons. lia.
  - auto.
Qed.

Lemma reachable_invariant (size : Z) (c0 c : State * list Task) :
  reachable c0 c -> semaphore_invariant size c0 -> semaphore_invariant size c.
Proof.
  induction 1 as [|c c' _ IH Hstep]; intros H0; [exact H0|].
  eapply loop_step_invariant; [exact Hstep|]. apply IH, H0.
Qed.

Lemma reachable_length (c0 c : State * list Task) :
  reachable c0 c -> length (snd c) = length (snd c0).
Proof.
  induction 1 as [|c c' _ IH Hstep]; [reflexivity|].
  rewrite <- IH. destruct Hstep. simpl. rewrite !length_app. reflexivity.
Qed.

Lemma initial_invariant (st0 : State) (requests : list ScrapeRequest) :
  0 <= permits st0 ->
  semaphore_invariant (permits st0)
    (st0, map (fun rq => Running (scrape_url rq)) requests).
Proof.
  intros Hpos. exists (map (fun _ => false) requests). simpl. split; [|split].
  - induction requests as [|rq rest IH]; simpl; constructor; [|exact IH].
    simpl. apply gated_scrape_url.
  - assert (H : held (map (fun _ : ScrapeRequest => false) requests) = 0).
    { induction requests as [|rq rest IH]; [reflexivity|].
      simpl map. rewrite held_cons, IH. reflexivity. }
    rewrite H. lia.
  - exact Hpos.
Qed.

(** C10.  Tasks of [scrape_url] run together on one scraper whose
    semaphore starts with [max_parallel_fetches] permits.  At every point
    that the event loop can reach, at most [max_parallel_fetches] fetches
    are in flight.  A task that asks for a permit when none is left takes
    no step, and takes one as soon as a permit is there.  A task whose URL
    has a live cache entry finishes in one step that leaves the semaphore
    as it is.  In particular no more than 2 fetches are in flight when
    [max_parallel_fetches] is 2, however many URLs there are. *)
Theorem semaphore_bounds_fetches (st0 : State) (requests : list ScrapeRequest)
    (st : State) (tasks : list Task) :
  0 <= max_parallel_fetches (config self) ->
  permits st0 = max_parallel_fetches (config self) ->
  reachable (st0, map (fun rq => Running (scrape_url rq)) requests) (st, tasks) ->
  Z.of_nat (in_flight tasks) <= max_parallel_fetches (config self)
  /\ 0 <= permits st <= max_parallel_fetches (config self)
  /\ length tasks = length requests
  /\ (forall k, permits st = 0 ->
        ~ exists st' t', task_step st (Running (Acquire k)) st' t')
  /\ (forall k, 0 < permits st ->
        task_step st (Running (Acquire k)) (with_permits st (permits st - 1)) (Running k))
  /\ (forall request expires_at r,
        cache st !! request_url request = Some (expires_at, r) ->
        Qlt (time_time (world st)) expires_at ->
        task_step st (Running (scrape_url request)) st (Running (Ret r)))
  /\ (max_parallel_fetches (config self) = 2 -> (in_flight tasks <= 2)%nat).
Proof.
  intros Hsize Hst0 Hreach.
  assert (Hinv : semaphore_invariant (permits st0) (st, tasks)).
  { eapply reachable_invariant; [exact Hreach|].
    apply initial_invariant. lia. }
  destruct Hinv as (flags & Hall & Hsum & Hpos). simpl in *.
  assert (Hfl := in_flight_le_held flags tasks Hall).
  assert (Hheld : 0 <= held flags) by (unfold held; lia).
  split; [lia|]. split; [lia|].
  split.
  { apply reachable_length in Hreach. simpl in Hreach.
    rewrite Hreach, length_map. reflexivity. }
  split.
  { intros k Hzero (st' & t' & Hstep). inversion Hstep; subst. lia. }
  split.
  { intros k Hp. apply step_acquire. exact Hp. }
  split.
  { intros request expires_at r Hc Hlt.
    unfold scrape_url.
    match goal with
    | |- task_step _ (Running (GetCached _ ?k)) _ _ =>
        pose proof (step_get st (request_url request) k (Some r) (cache st)) as Hstep
    end.
    rewrite state_eta in Hstep. apply Hstep.
    unfold _get_cached. rewrite Hc, (Qle_bool_false _ _ Hlt). reflexivity. }
  intros H2. lia.
Qed.

(** ** Failures of [fetch] *)




(** ** One result per URL *)

(** [ResolutionScraper()] without arguments is the default scraper. *)
Lemma init_default : ResolutionScraper_init None None = Ok default_scraper.
Proof. reflexivity. Qed.

Lemma retries_in_turn_urls (request : ScrapeRequest) (tried : list SourceAdapter)
    (st st1 : State) (results : list ScrapeResult) :
  retries_in_turn request tried st results st1 ->
  (forall a, In a tried -> In a (adapters self)) ->
  chain_labels_results ->
  Forall (fun r => result_url r = request_url request) results.
Proof.
  intros Hturn. induction Hturn as [|a rest st r st1 rs st2 Hrun _ IH]; intros Hin Hlab.
  - constructor.
  - constructor.
    + destruct (fetch_with_retries_returns a request st)
        as (r' & st' & Hrun' & _ & _ & _ & Hres).
      rewrite Hrun in Hrun'. injection Hrun' as <- <-.
      destruct Hres as [(_ & w & Hw)|(le & ->)]; [|reflexivity].
      apply (Hlab a request w); [apply Hin; left; reflexivity|exact Hw].
    + apply IH; [|exact Hlab]. intros a' Ha'. apply Hin. right. exact Ha'.
Qed.

Lemma get_cached_keyed (now : Q) (url : string) (c : gmap string (Q * ScrapeResult)) :
  cache_keyed c ->
  cache_keyed (snd (_get_cached now url c))
  /\ forall r, fst (_get_cached now url c) = Some r -> result_url r = url.
Proof.
  intros Hk. unfold _get_cached.
  destruct (c !! url) as [[e r]|] eqn:E; [|split; [exact Hk|discriminate]].
  destruct (Qle_bool e now); simpl.
  - split; [|discriminate]. intros u e' r' H.
    apply lookup_delete_Some in H. destruct H as [_ H]. eapply Hk, H.
  - split; [exact Hk|]. intros r' [= <-]. eapply Hk, E.
Qed.

Lemma scrape_url_labels (request : ScrapeRequest) (st : State) :
  0 < permits st ->
  cache_keyed (cache st) ->
  Forall (fun a => exists b, can_handle a request = Ok b) (adapters self) ->
  chain_labels_results ->
  exists result st',
    run (scrape_url request) st = (Returned result, st')
    /\ result_url result = request_url request
    /\ permits st' = permits st
    /\ cache_keyed (cache st').
Proof.
  intros Hperm Hkey Hcan Hlab.
  destruct (get_cached_keyed (time_time (world st)) (request_url request) (cache st) Hkey)
    as (Hkey' & Hhit).
  destruct (_get_cached (time_time (world st)) (request_url request) (cache st))
    as [[r|] c] eqn:Hget; cbn [fst snd] in *.
  - exists r, (mkState (world st) c (permits st) (trace st)).
    split; [unfold scrape_url; cbn [run]; rewrite Hget; reflexivity|].
    split; [apply Hhit; reflexivity|]. split; [reflexivity|exact Hkey'].
  - destruct (scrape_url_miss request st c Hget Hperm Hcan)
      as (tried & results & st1 & result & st' & Hrun & Hturn & _ & _ & Hp & Hc & _ & Hres).
    assert (Hurl : result_url result = request_url request).
    { destruct Hres as [(init & untried & -> & _ & _ & Hf)|(_ & _ & ->)]; [|reflexivity].
      assert (Hall := retries_in_turn_urls request tried _ _ _ Hturn).
      apply Forall_app in Hall; [|intros a Ha|exact Hlab].
      - destruct Hall as [_ Hl]. inversion Hl; subst. assumption.
      - assert (Hin : In a (List.filter (capable request) (adapters self)))
          by (rewrite Hf; apply in_or_app; left; exact Ha).
        apply filter_In in Hin. apply Hin. }
    exists result, st'. split; [exact Hrun|]. split; [exact Hurl|].
    split; [exact Hp|].
    rewrite Hc. intros u e r H.
    destruct (decide (request_url request = u)) as [<-|Hne].
    + rewrite lookup_insert_eq in H. injection H as _ <-. exact Hurl.
    + rewrite lookup_insert_ne in H by exact Hne. eapply Hkey', H.
Qed.

Lemma gather_scrape_url_labels (requests : list ScrapeRequest) (st : State) :
  0 < permits st ->
  cache_keyed (cache st) ->
  (forall rq, Forall (fun a => exists b, can_handle a rq = Ok b) (adapters self)) ->
  chain_labels_results ->
  exists results st',
    run (gather (map scrape_url requests)) st = (Returned results, st')
    /\ map result_url results = map request_url requests.
Proof.
  intros Hperm Hkey Hcan Hlab. revert st Hperm Hkey.
  induction requests as [|rq rest IH]; intros st Hperm Hkey.
  - exists [], st. split; reflexivity.
  - destruct (scrape_url_labels rq st Hperm Hkey (Hcan rq) Hlab)
      as (r & st1 & Hrun & Hurl & Hp & Hk).
    destruct (IH st1 ltac:(lia) Hk) as (rs & st2 & Hrun' & Hurls).
    exists (r :: rs), st2. cbn [map gather].
    rewrite run_bind, Hrun, run_bind, Hrun'. cbn [run map].
    split; [reflexivity|]. rewrite Hurl, Hurls. reflexivity.
Qed.

(** What holds of [scrape_question_sources] apart from exceptions of
    [can_handle].  When no [can_handle] raises, the semaphore has
    a free permit and the adapters put the URL of the request into their
    results, [scrape_question_sources] returns, under the schedule that
    runs the coroutines of [gather] one after the other, one result for
    every extracted URL, in the order of extraction, each with the URL of
    its request. *)
Lemma scrape_question_sources_results (question_details : list (string * DetailVal))
    (st : State) :
  0 < permits st ->
  cache_keyed (cache st) ->
  (forall rq, Forall (fun a => exists b, can_handle a rq = Ok b) (adapters self)) ->
  chain_labels_results ->
  exists results st',
    run (scrape_question_sources question_details) st = (Returned results, st')
    /\ map result_url results
       = extract_resolution_urls
           (get_str question_details "resolution_criteria")
           (get_str question_details "fine_print")
           (get_str question_details "description").
Proof.
  intros Hperm Hkey Hcan Hlab. unfold scrape_question_sources.
  assert (Hreq : map request_url (question_requests question_details)
                 = extract_resolution_urls
                     (get_str question_details "resolution_criteria")
                     (get_str question_details "fine_print")
                     (get_str question_details "description")).
  { unfold question_requests. rewrite map_map. apply map_id. }
  destruct (question_requests question_details) as [|rq rest] eqn:E.
  - exists [], st. split; [reflexivity|]. rewrite <- Hreq. reflexivity.
  - destruct (gather_scrape_url_labels (rq :: rest) st Hperm Hkey Hcan Hlab)
      as (results & st' & Hrun & Hurls).
    exists results, st'. split; [exact Hrun|]. rewrite Hurls. exact Hreq.
Qed.

(** The adapters of the default chain put the URL of the request into
    their results. *)
Lemma default_chain_labels (cfg : ScraperConfig) (a : SourceAdapter)
    (rq : ScrapeRequest) (w : World) (r : ScrapeResult) :
  In a (_build_default_adapters cfg) ->
  fst (fetch a rq w) = Ok r -> result_url r = request_url rq.
Proof.
  intros Hin Hf.
  assert (Ha : a = WikipediaAdapter cfg \/ a = JsonApiAdapter cfg \/ a = CsvAdapter cfg
               \/ a = StaticHtmlAdapter cfg \/ a = BrowserAdapter cfg).
  { unfold _build_default_adapters in Hin.
    destruct (use_browser_fallback cfg); simpl in Hin; intuition auto. }
  destruct Ha as [->|[->|[->|[->| ->]]]]; cbn [fetch WikipediaAdapter JsonApiAdapter
    CsvAdapter StaticHtmlAdapter BrowserAdapter] in Hf.
  - unfold wikipedia_fetch, get_checked in Hf.
    repeat match type of Hf with
           | context [match ?x with _ => _ end] => destruct x
           | context [if ?x then _ else _] => destruct x
           end;
      simpl in Hf; try discriminate; injection Hf as <-; reflexivity.
  - unfold json_fetch, get_checked in Hf.
    repeat match type of Hf with
           | context [match ?x with _ => _ end] => destruct x
           | context [if ?x then _ else _] => destruct x
           end;
      simpl in Hf; try discriminate; injection Hf as <-; reflexivity.
  - unfold csv_fetch, get_checked, csv_extract in Hf.
    repeat match type of Hf with
           | context [match ?x with _ => _ end] => destruct x
           | context [if ?x then _ else _] => destruct x
           end;
      simpl in Hf; try discriminate; injection Hf as <-; reflexivity.
  - unfold html_fetch, get_checked in Hf.
    repeat match type of Hf with
           | context [match ?x with _ => _ end] => destruct x
           | context [if ?x then _ else _] => destruct x
           end;
      simpl in Hf; try discriminate; injection Hf as <-; reflexivity.
  - unfold browser_fetch in Hf.
    repeat match type of Hf with
           | context [match ?x with _ => _ end] => destruct x
           | context [if ?x then _ else _] => destruct x
           end;
      simpl in Hf; try discriminate; injection Hf as <-; reflexivity.
Qed.

End WithScraper.
End Scraper.

(** * Evaluation on concrete inputs *)

Local Notation sim_chain net :=
  (_build_default_adapters UrlModel.urlparse FloatModel.py_float Sim.py_int
     Sim.World (Sim.http_get net) Sim.utc_now_iso None None default_config).

Local Notation sim_scraper net :=
  (default_scraper UrlModel.urlparse FloatModel.py_float Sim.py_int
     Sim.World (Sim.http_get net) Sim.utc_now_iso None None).

Local Notation sim_run := (run Sim.World Sim.time_time Sim.asyncio_sleep).

(** C7, the claim as stated fails: a URL on a Wikipedia host whose path
    ends in ".csv" is classified "wikipedia". *)
Lemma classify_url_csv_counterexample :
  ~ (forall url parsed,
        UrlModel.urlparse url = Ok parsed ->
        Str.endswith ".csv" (path parsed) = true ->
        classify_url UrlModel.urlparse url = Ok "csv").
Proof.
  intros H.
  specialize (H "https://en.wikipedia.org/data.csv"
                (mkParseResult "https" "en.wikipedia.org" "/data.csv" "" "" "")
                eq_refl eq_refl).
  vm_compute in H. discriminate.
Qed.

Lemma classify_url_priority_witness :
  UrlModel.urlparse "https://example.com/data/table.csv"
  = Ok (mkParseResult "https" "example.com" "/data/table.csv" "" "" "")
  /\ classify_url UrlModel.urlparse "https://example.com/data/table.csv" = Ok "csv".
Proof.
  split; [reflexivity|].
  destruct (classify_url_priority UrlModel.urlparse
              "https://example.com/data/table.csv"
              (mkParseResult "https" "example.com" "/data/table.csv" "" "" "")
              eq_refl) as (_ & _ & _ & _ & _ & _ & H).
  apply H; reflexivity.
Defined.



(** C5, evaluation at the failing input: the question text holds the URL
    "http://[abc"; [urlparse] raises in [can_handle] of the first
    adapter, and [scrape_question_sources] raises. *)
Theorem scrape_question_sources_raises :
  extract_resolution_urls "See http://[abc for details" "" "" = ["http://[abc"]
  /\ fst (sim_run (sim_scraper Sim.unreachable)
            (scrape_question_sources Sim.World (sim_scraper Sim.unreachable)
               [("resolution_criteria", DStr "See http://[abc for details")])
            (initial_state Sim.World (sim_scraper Sim.unreachable) (Qmake 0 1)))
     = Raised "Invalid IPv6 URL".
Proof. split; vm_compute; reflexivity. Qed.

Local Notation probe := (probe_scraper Sim.World).
Local Notation probe_adapter := (always_raising Sim.World "probe" "boom").

Lemma fetch_with_retries_attempts_witness :
  0 <= max_retries (config Sim.World (probe 4))
  /\ exists o1 o2 o3 result st',
       sim_run (probe 4)
         (_fetch_with_retries Sim.World (probe 4) probe_adapter
            (request_for "https://example.com/x"))
         (initial_state Sim.World (probe 4) (Qmake 0 1))
       = (Returned result, st')
       /\ trace Sim.World st'
          = [EvFetch "probe" "https://example.com/x" o1;
             EvSleep (Qmult (Qmake 3 4) (inject_Z (2 ^ 0)));
             EvFetch "probe" "https://example.com/x" o2;
             EvSleep (Qmult (Qmake 3 4) (inject_Z (2 ^ 1)));
             EvFetch "probe" "https://example.com/x" o3]
       /\ ok result = false.
Proof.
  assert (H : 0 <= max_retries (config Sim.World (probe 4))) by (vm_compute; discriminate).
  split; [exact H|].
  destruct (fetch_with_retries_attempts Sim.World Sim.time_time Sim.asyncio_sleep
              (probe 4) probe_adapter (request_for "https://example.com/x")
              (initial_state Sim.World (probe 4) (Qmake 0 1)) H)
    as (outcomes & result & st' & Hrun & _ & _ & _ & _ & Hthree).
  destruct (Hthree eq_refl (fun _ => eq_refl))
    as (o1 & o2 & o3 & _ & Htr & _ & _ & Hok & _).
  exists o1, o2, o3, result, st'.
  split; [exact Hrun|]. split; [exact Htr|exact Hok].
Defined.

Lemma scrape_url_adapter_walk_witness :
  exists result st',
    sim_run (sim_scraper Sim.unreachable)
      (scrape_url Sim.World (sim_scraper Sim.unreachable)
         (request_for "https://example.com/data.csv"))
      (initial_state Sim.World (sim_scraper Sim.unreachable) (Qmake 0 1))
    = (Returned result, st')
    /\ ((ok result = true /\ signals result <> [])
        \/ exists results,
             result = mkScrapeResult "https://example.com/data.csv" false []
                        (last_meaningful_error results)).
Proof.
  destruct (scrape_url_adapter_walk Sim.World Sim.time_time Sim.asyncio_sleep
              (sim_scraper Sim.unreachable)
              (request_for "https://example.com/data.csv")
              (initial_state Sim.World (sim_scraper Sim.unreachable) (Qmake 0 1)))
    as (tried & results & st1 & result & st' & Hrun & _ & _ & Hres & _).
  - reflexivity.
  - vm_compute. reflexivity.
  - repeat constructor; eexists; vm_compute; reflexivity.
  - exists result, st'. split; [exact Hrun|].
    destruct Hres as [(init & untried & _ & _ & _ & Hok & Hsig)|(_ & _ & Hr)].
    + left. split; assumption.
    + right. exists results. exact Hr.
Defined.

Local Notation sim_step := (task_step Sim.World Sim.time_time Sim.asyncio_sleep).
Local Notation sim_reachable := (reachable Sim.World Sim.time_time Sim.asyncio_sleep).
Local Notation probe_tasks :=
  (map (fun rq => Running Sim.World (scrape_url Sim.World (probe 2) rq))
       [request_for "https://example.com/1"; request_for "https://example.com/2";
        request_for "https://example.com/3"]).

(** Three URLs and a semaphore of size 2: a point is reached where two fetches
    are in flight, and the bound holds there. *)
Lemma semaphore_bounds_fetches_witness :
  exists st tasks,
    sim_reachable (probe 2) (initial_state Sim.World (probe 2) (Qmake 0 1), probe_tasks)
                  (st, tasks)
    /\ in_flight Sim.World tasks = 2%nat
    /\ permits Sim.World st = 0
    /\ Z.of_nat (in_flight Sim.World tasks)
       <= max_parallel_fetches (config Sim.World (probe 2)).
Proof.
  set (c0 := (initial_state Sim.World (probe 2) (Qmake 0 1), probe_tasks)).
  assert (R0 : sim_reachable (probe 2) c0 c0) by constructor.
  unfold c0 at 2 in R0. cbn [map] in R0.
  (* the first task looks up the cache, takes a permit and starts its fetch *)
  eapply reach_step in R0;
    [|eapply (loop_pick _ _ _ _ _ _ []); eapply step_get; vm_compute; reflexivity].
  cbn [app] in R0.
  eapply reach_step in R0;
    [|eapply (loop_pick _ _ _ _ _ _ []); eapply step_acquire; vm_compute; reflexivity].
  cbn [app] in R0.
  eapply reach_step in R0;
    [|eapply (loop_pick _ _ _ _ _ _ []); eapply step_fetch_start].
  cbn [app] in R0.
  (* so does the second task *)
  eapply reach_step in R0;
    [|eapply (loop_pick _ _ _ _ _ _ [_]); eapply step_get; vm_compute; reflexivity].
  cbn [app] in R0.
  eapply reach_step in R0;
    [|eapply (loop_pick _ _ _ _ _ _ [_]); eapply step_acquire; vm_compute; reflexivity].
  cbn [app] in R0.
  eapply reach_step in R0;
    [|eapply (loop_pick _ _ _ _ _ _ [_]); eapply step_fetch_start].
  cbn [app] in R0.
  match type of R0 with
  | sim_reachable _ _ (?st, ?tasks) =>
      exists st, tasks;
      destruct (semaphore_bounds_fetches Sim.World Sim.time_time Sim.asyncio_sleep
                  (probe 2) (initial_state Sim.World (probe 2) (Qmake 0 1))
                  [request_for "https://example.com/1";
                   request_for "https://example.com/2";
                   request_for "https://example.com/3"]
                  st tasks
                  ltac:(vm_compute; discriminate) eq_refl R0) as (Hbound & _)
  end.
  split; [exact R0|]. split; [reflexivity|]. split; [reflexivity|exact Hbound].
Defined.

Local Notation sample_signal conf value :=
  (mkResolutionSignal "https://example.com/data.csv" "csv_total" (VInt value)
     "2026-01-01T00:00:00+00:00" "csv" conf "" None).

Local Notation sample_signals :=
  [sample_signal "low" 1; sample_signal "high" 2; sample_signal "medium" 3;
   sample_signal "high" 4].

Lemma format_resolution_snapshot_spec_witness :
  Z.of_nat (length (snapshot_lines Sim.float_repr sample_signals 3)) <= 3
  /\ map value (firstn 3 (sorted_desc rank sample_signals)) = [VInt 2; VInt 4; VInt 3]
  /\ Str.count newline (format_resolution_snapshot Sim.float_repr sample_signals 3)
     = 2%nat.
Proof.
  destruct (format_resolution_snapshot_spec Sim.float_repr sample_signals 3)
    as (_ & _ & H).
  destruct (H ltac:(discriminate) ltac:(discriminate))
    as (_ & _ & _ & _ & _ & _ & Hlen & _ & Hnl).
  split; [exact Hlen|]. split; [reflexivity|].
  apply Hnl. repeat constructor.
Defined.

Local Notation probe_url := "https://example.com/x".
Local Notation probe_failure := (failure probe_url "probe: boom").
Local Notation probe_cache := (_set_cached (Qmake 0 1) 3600 probe_url probe_failure ∅).



Local Notation text_only_net :=
  (fun _ : string =>
     Ok (Sim.page "application/json" "{}" (Ok (JObj [("name", JStr "x"); ("flag", JBool true)]))
           [])).

Lemma extract_numeric_value_breadth_first_witness :
  json_fetch Sim.World (Sim.http_get text_only_net) Sim.utc_now_iso default_config
    (request_for "https://example.com/api/items") (Qmake 0 1)
  = (Ok (failure "https://example.com/api/items" "No numeric value found in JSON payload."),
     Qmake 0 1).
Proof.
  destruct (extract_numeric_value_breadth_first Sim.World (Sim.http_get text_only_net)
              Sim.utc_now_iso (JObj [("name", JStr "x"); ("flag", JBool true)]))
    as (_ & _ & _ & _ & _ & H & _).
  apply (H default_config (request_for "https://example.com/api/items") (Qmake 0 1)
           (Sim.page "application/json" "{}"
              (Ok (JObj [("name", JStr "x"); ("flag", JBool true)])) []));
    reflexivity.
Defined.
